(** * The managed-node synchronisation engine of op-supervisor

    A shallow embedding of
    [op-supervisor/supervisor/backend/syncnode/node.go]: the node-event
    dispatcher, the pull loop, the reset signal, the full reset, the
    conflict resolver with its bounded walk-back, and the L1 feeder.

    The two collaborators of a [ManagedNode] (the [backend] interface and
    the [SyncControl] node) are interfaces in the source; here they are
    type classes over an arbitrary world state, so every theorem holds for
    any stateful implementation of them.  Each handler is a function in a
    state-and-trace monad: it threads the world through the calls it makes
    and records, in order, every call, log line and bus emission.

    Contexts and their timeouts are not modelled: a call that is cut short
    by a deadline or a cancellation is a call that returns that error.  A
    log line is recorded with its level and message, without its
    key-value arguments. *)

From Stdlib Require Import ZArith List String Bool Lia.
Import ListNotations.
Open Scope Z_scope.

(** ** Machine integers *)

(** Go's [uint64]: a value in [0, 2^64), arithmetic modulo [2^64]. *)
Definition uint64_modulus : Z := 2 ^ 64.

Definition uint64 (z : Z) : Z := z mod uint64_modulus.

Definition uint64_max : Z := uint64_modulus - 1.

(** ** Block references *)

Definition Hash := Z.
Definition ChainID := Z.

(** Modelled from the spec: [eth.BlockID] is declared outside this file;
    the spec gives it as the (number, hash) identity of a block. *)
Record BlockID := mkBlockID { id_Hash : Hash; id_Number : Z }.

(** Modelled from the spec: [eth.BlockRef] (an alias of [eth.L1BlockRef])
    is a BlockID plus parent hash and timestamp. *)
Record BlockRef := mkBlockRef
  { ref_Hash : Hash; ref_Number : Z; ref_ParentHash : Hash; ref_Time : Z }.

(** [BlockRef.ID()] *)
Definition ID (r : BlockRef) : BlockID := mkBlockID (ref_Hash r) (ref_Number r).

(** Modelled from the spec: [types.DerivedIDPair], an (L1 source, L2
    derived) pair of block identities. *)
Record DerivedIDPair := mkDerivedIDPair
  { DerivedFrom : BlockID; Derived : BlockID }.

(** Modelled from the spec: [types.DerivedBlockRefPair]. *)
Record DerivedBlockRefPair := mkDerivedBlockRefPair
  { pair_DerivedFrom : BlockRef; pair_Derived : BlockRef }.

(** Modelled from the spec: [types.BlockReplacement] is
    [{ Replacement: BlockRef, Invalidated: BlockID }]. *)
Record BlockReplacement := mkBlockReplacement
  { Replacement : BlockRef; Invalidated : BlockID }.

(** Go zero values. *)
Definition zeroBlockID : BlockID := mkBlockID 0 0.
Definition zeroBlockRef : BlockRef := mkBlockRef 0 0 0 0.
Definition zeroDerivedIDPair : DerivedIDPair := mkDerivedIDPair zeroBlockID zeroBlockID.

(** Modelled from the spec: [types.ManagedEvent], five independent optional
    fields (pointers in the source, [None] for a nil pointer). *)
Record ManagedEvent := mkManagedEvent
  { ev_Reset : option string;
    ev_UnsafeBlock : option BlockRef;
    ev_DerivationUpdate : option DerivedBlockRefPair;
    ev_ExhaustL1 : option DerivedBlockRefPair;
    ev_ReplaceBlock : option BlockReplacement }.

(** ** Errors *)

(** The sentinel errors the source compares against with [errors.Is]:
    [types.ErrConflict], [types.ErrFuture], [types.ErrOutOfOrder],
    [ethereum.NotFound], [io.EOF], and the two context errors. *)
Inductive sentinel :=
| ErrConflict | ErrFuture | ErrOutOfOrder | NotFound | EOF
| Canceled | DeadlineExceeded.

Definition sentinel_eqb (a b : sentinel) : bool :=
  match a, b with
  | ErrConflict, ErrConflict | ErrFuture, ErrFuture
  | ErrOutOfOrder, ErrOutOfOrder | NotFound, NotFound | EOF, EOF
  | Canceled, Canceled | DeadlineExceeded, DeadlineExceeded => true
  | _, _ => false
  end.

(** An argument of a format string. *)
Inductive fmt_arg :=
| ArgNum (n : Z)
| ArgID (id : BlockID).

(** A non-nil Go error value: a sentinel, a remote [gethrpc.JsonError] with
    its numeric code, an opaque error, or the result of [fmt.Errorf], which
    wraps the error given for its [%w] verb (if any).  A format is kept
    with its arguments, not rendered.  Every [fmt.Errorf] of the file has
    at most one [%w], so an error is a chain; joined errors do not occur. *)
#[local] Set Warnings "-register-all".
Inductive err :=
| Sentinel (s : sentinel)
| JsonError (Code : Z) (Message : string)
| Opaque (msg : string)
| Errorf (format : string) (args : list fmt_arg) (wrapped : option err).
#[local] Set Warnings "+register-all".

(** Go's [error] interface value; [None] is [nil]. *)
Definition error := option err.

Fixpoint chain_is (e : err) (target : sentinel) : bool :=
  match e with
  | Sentinel s => sentinel_eqb s target
  | Errorf _ _ (Some inner) => chain_is inner target
  | _ => false
  end.

(** [errors.Is(err, target)] for a sentinel target. *)
Definition errors_Is (e : error) (target : sentinel) : bool :=
  match e with
  | None => false
  | Some e => chain_is e target
  end.

Fixpoint chain_as_JsonError (e : err) : option Z :=
  match e with
  | JsonError code _ => Some code
  | Errorf _ _ (Some inner) => chain_as_JsonError inner
  | _ => None
  end.

(** [errors.As(err, &rpcErr)] with [rpcErr *gethrpc.JsonError]: the code of
    the first JsonError in the chain. *)
Definition errors_As_JsonError (e : error) : option Z :=
  match e with
  | None => None
  | Some e => chain_as_JsonError e
  end.

(** ** Constants *)

Definition maxWalkBackAttempts : Z := 300.
Definition blockNotFoundRPCErrCode : Z := -39001.
Definition conflictingBlockRPCErrCode : Z := -39002.

(** ** Observable effects *)

Inductive Level := LvlDebug | LvlInfo | LvlWarn | LvlError.

(** Outbound bus events ([superevents]). *)
Inductive superevent :=
| LocalUnsafeReceivedEvent (chain : ChainID) (NewLocalUnsafe : BlockRef)
| LocalDerivedEvent (chain : ChainID) (pair : DerivedBlockRefPair)
| ReplaceBlockEvent (chain : ChainID) (replacement : BlockReplacement).

(** What a handler does that an observer can see, in order. *)
Inductive Effect :=
| Log (lvl : Level) (msg : string)
| CallLocalSafe (chain : ChainID)
| CallLocalUnsafe (chain : ChainID)
| CallCrossSafe (chain : ChainID)
| CallSafeDerivedAt (chain : ChainID) (derivedFrom : BlockID)
| CallFinalized (chain : ChainID)
| CallL1BlockRefByNumber (number : Z)
| CallReset (unsafe safe finalized : BlockID)
| CallProvideL1 (nextL1 : BlockRef)
| CallPullEvent
| Emit (ev : superevent).

Definition Trace := list Effect.

(** ** Collaborators *)

(** The [backend] interface of the source.  A method returns its value and
    its error side by side, as in Go, and the next world. *)
Class backend (World : Type) := {
  LocalSafe : ChainID -> World -> (DerivedIDPair * error) * World;
  LocalUnsafe : ChainID -> World -> (BlockID * error) * World;
  CrossSafe : ChainID -> World -> (DerivedIDPair * error) * World;
  SafeDerivedAt : ChainID -> BlockID -> World -> (BlockID * error) * World;
  Finalized : ChainID -> World -> (BlockID * error) * World;
  L1BlockRefByNumber : Z -> World -> (BlockRef * error) * World
}.

(** Modelled from the spec: the [SyncControl] interface of the node is
    declared outside this file; of the operations the spec lists for the
    Sync Target, these are the ones the handlers below call. *)
Class SyncControl (World : Type) := {
  Node_Reset : BlockID -> BlockID -> BlockID -> World -> error * World;
  Node_ProvideL1 : BlockRef -> World -> error * World;
  Node_PullEvent : World -> (option ManagedEvent * error) * World
}.

Record ManagedNode := mkManagedNode { chainID : ChainID }.

(** ** The state-and-trace monad *)

Definition M (World A : Type) : Type := World -> A * World * Trace.

Definition ret {World A} (a : A) : M World A := fun w => (a, w, []).

Definition bind {World A B} (c : M World A) (k : A -> M World B) : M World B :=
  fun w =>
    let '(a, w1, t1) := c w in
    let '(b, w2, t2) := k a w1 in
    (b, w2, t1 ++ t2).

Declare Scope go_scope.
Delimit Scope go_scope with go.
Notation "x <- c ;; k" := (bind c (fun x => k))
  (at level 100, c at next level, right associativity) : go_scope.
Notation "' p <- c ;; k" := (bind c (fun x => let p := x in k))
  (at level 100, p pattern, c at next level, right associativity) : go_scope.
Notation "c ;; k" := (bind c (fun _ => k))
  (at level 100, right associativity) : go_scope.

(** Performing a call of a collaborator records it. *)
Definition call {World A} (e : Effect) (op : World -> A * World) : M World A :=
  fun w => let '(a, w1) := op w in (a, w1, [e]).

Definition tell {World} (e : Effect) : M World unit := fun w => (tt, w, [e]).

Definition value_of {World A} (r : A * World * Trace) : A := fst (fst r).
Definition world_of {World A} (r : A * World * Trace) : World := snd (fst r).
Definition trace_of {World A} (r : A * World * Trace) : Trace := snd r.

(** ** Reading a trace *)

Definition reset_of (e : Effect) : list (BlockID * BlockID * BlockID) :=
  match e with
  | CallReset u s f => [(u, s, f)]
  | _ => []
  end.

(** The [Reset] calls of a trace, with their arguments, in order. *)
Definition resets (t : Trace) : list (BlockID * BlockID * BlockID) :=
  flat_map reset_of t.

(** The safe-candidate numbers of the [Reset] calls of a trace. *)
Definition reset_candidates (t : Trace) : list Z :=
  map (fun r => id_Number (snd (fst r))) (resets t).

Definition oracle_query_of (e : Effect) : list BlockID :=
  match e with
  | CallSafeDerivedAt _ d => [d]
  | _ => []
  end.

(** The [SafeDerivedAt] reads of a trace, in order. *)
Definition oracle_queries (t : Trace) : list BlockID :=
  flat_map oracle_query_of t.

Definition provided_of (e : Effect) : list BlockRef :=
  match e with
  | CallProvideL1 r => [r]
  | _ => []
  end.

Definition provided (t : Trace) : list BlockRef := flat_map provided_of t.

Definition emitted_of (e : Effect) : list superevent :=
  match e with
  | Emit ev => [ev]
  | _ => []
  end.

Definition emitted (t : Trace) : list superevent := flat_map emitted_of t.

(** [strings.Contains(s, substr)] *)
Fixpoint Contains (s substr : string) : bool :=
  if String.prefix substr s then true
  else match s with
       | EmptyString => false
       | String _ rest => Contains rest substr
       end.

(** ** The handlers of a managed node *)

Section Engine.

Context {World : Type} {B : backend World} {N : SyncControl World}.
Variable m : ManagedNode.

Local Open Scope go_scope.

Definition log (lvl : Level) (msg : string) : M World unit := tell (Log lvl msg).

Definition emit (ev : superevent) : M World unit := tell (Emit ev).

(** The remote codes on which the resolver walks back: [errors.As] finds a
    JsonError whose code is "block not found" or "conflicting block". *)
Definition walkable (e : error) : bool :=
  match errors_As_JsonError e with
  | Some code =>
      (code =? blockNotFoundRPCErrCode) || (code =? conflictingBlockRPCErrCode)
  | None => false
  end.

(** The closure [tryReset] of [resolveConflict]: attempt a reset and
    classify the error as (resolved, needsWalkback, err). *)
Definition tryReset (u f safe : BlockID) : M World (bool * bool * error) :=
  log LvlDebug "Attempting reset" ;;
  e <- call (CallReset u safe f) (Node_Reset u safe f) ;;
  match e with
  | None => ret (true, false, None)
  | Some _ =>
      if walkable e then ret (false, true, e) else ret (false, false, e)
  end.

(** The [for] loop of [resolveConflict]; [attempts] is the number of
    iterations left, [maxWalkBackAttempts - i]. *)
Fixpoint walkBack (attempts : nat) (u f : BlockID) (currentBlock : Z)
  : M World error :=
  match attempts with
  | O =>
      ret (Some (Errorf "exceeded maximum walk-back attempts (%d)"
                        [ArgNum maxWalkBackAttempts] None))
  | S attempts' =>
      let currentBlock := uint64 (currentBlock - 1) in
      if currentBlock <=? id_Number f then
        ret (Some (Errorf "reached finalized block %d without finding common ancestor"
                          [ArgNum (id_Number f)] None))
      else
        ' (safe, e) <- call (CallSafeDerivedAt (chainID m) (mkBlockID 0 currentBlock))
                            (SafeDerivedAt (chainID m) (mkBlockID 0 currentBlock)) ;;
        match e with
        | Some _ =>
            ret (Some (Errorf "failed to retrieve safe block %d: %w"
                              [ArgNum currentBlock] e))
        | None =>
            ' (resolved, _, e) <- tryReset u f safe ;;
            if resolved then ret None
            else if negb (walkable e) then
              (* [!errors.As(..) || (code != notFound && code != conflicting)] *)
              ret (Some (Errorf "error during reset at block %d: %w"
                                [ArgNum currentBlock] e))
            else walkBack attempts' u f currentBlock
        end
  end.

Definition resolveConflict (l1Ref : BlockRef) (u f : BlockID) : M World error :=
  ' (s, e) <- call (CallSafeDerivedAt (chainID m) (ID l1Ref))
                   (SafeDerivedAt (chainID m) (ID l1Ref)) ;;
  match e with
  | Some _ =>
      ret (Some (Errorf "failed to retrieve safe block for %v: %w"
                        [ArgID (ID l1Ref)] e))
  | None =>
      ' (resolved, needsWalkback, e) <- tryReset u f s ;;
      if resolved then ret None
      else if negb needsWalkback then
        ret (Some (Errorf "error during reset: %w" [] e))
      else walkBack (Z.to_nat maxWalkBackAttempts) u f (id_Number s)
  end.

Definition resetSignal (errSignal : error) (l1Ref : BlockRef) : M World unit :=
  ' (u, e) <- call (CallLocalUnsafe (chainID m)) (LocalUnsafe (chainID m)) ;;
  match e with
  | Some _ => log LvlWarn "Failed to retrieve local-unsafe"
  | None =>
      ' (f, e) <- call (CallFinalized (chainID m)) (Finalized (chainID m)) ;;
      match e with
      | Some _ => log LvlWarn "Failed to retrieve finalized"
      | None =>
          if errors_Is errSignal ErrConflict then
            e <- resolveConflict l1Ref u f ;;
            match e with
            | Some _ => log LvlWarn "Failed to resolve conflict"
            | None => ret tt
            end
          else if errors_Is errSignal ErrFuture then
            ' (s, e) <- call (CallLocalSafe (chainID m)) (LocalSafe (chainID m)) ;;
            match e with
            | Some _ => log LvlWarn "Failed to retrieve local-safe"
            | None => ret tt
            end ;;
            log LvlDebug "Node detected future block, resetting" ;;
            e <- call (CallReset u (Derived s) f) (Node_Reset u (Derived s) f) ;;
            match e with
            | Some _ => log LvlWarn "Node failed to reset"
            | None => ret tt
            end
          else if errors_Is errSignal ErrOutOfOrder then
            ' (s, e) <- call (CallLocalSafe (chainID m)) (LocalSafe (chainID m)) ;;
            match e with
            | Some _ => log LvlWarn "Failed to retrieve local-safe"
            | None =>
                log LvlWarn "Node detected out of order block" ;;
                e <- call (CallReset u (Derived s) f) (Node_Reset u (Derived s) f) ;;
                match e with
                | Some _ => log LvlWarn "Node failed to reset"
                | None => ret tt
                end
            end
          else ret tt
      end
  end.

Definition sendReset : M World unit :=
  ' (u, e) <- call (CallLocalUnsafe (chainID m)) (LocalUnsafe (chainID m)) ;;
  match e with
  | Some _ => log LvlWarn "Failed to retrieve local-unsafe"
  | None =>
      ' (s, e) <- call (CallCrossSafe (chainID m)) (CrossSafe (chainID m)) ;;
      match e with
      | Some _ => log LvlWarn "Failed to retrieve cross-safe"
      | None =>
          ' (f, e) <- call (CallFinalized (chainID m)) (Finalized (chainID m)) ;;
          let issue (f : BlockID) :=
            e <- call (CallReset u (Derived s) f) (Node_Reset u (Derived s) f) ;;
            match e with
            | Some _ => log LvlWarn "Node failed to reset"
            | None => ret tt
            end in
          match e with
          | Some _ =>
              if errors_Is e ErrFuture then issue (mkBlockID 0 0)
              else log LvlWarn "Failed to retrieve finalized"
          | None => issue f
          end
      end
  end.

Definition onResetEvent (errStr : string) : M World unit :=
  log LvlWarn "Node sent us a reset error" ;;
  if Contains errStr "cannot continue derivation until Engine has been reset"
  then ret tt
  else resetSignal (Some (Sentinel ErrFuture)) zeroBlockRef.

Definition onUnsafeBlock (unsafeRef : BlockRef) : M World unit :=
  log LvlInfo "Node has new unsafe block" ;;
  emit (LocalUnsafeReceivedEvent (chainID m) unsafeRef).

Definition onDerivationUpdate (pair : DerivedBlockRefPair) : M World unit :=
  log LvlInfo "Node derived new block" ;;
  emit (LocalDerivedEvent (chainID m) pair).

Definition onExhaustL1Event (completed : DerivedBlockRefPair) : M World unit :=
  log LvlInfo "Node completed syncing" ;;
  let number := uint64 (ref_Number (pair_DerivedFrom completed) + 1) in
  ' (nextL1, e) <- call (CallL1BlockRefByNumber number) (L1BlockRefByNumber number) ;;
  match e with
  | Some _ =>
      if errors_Is e NotFound
      then log LvlDebug "Next L1 block is not yet available"
      else log LvlError "Failed to retrieve next L1 block for node"
  | None =>
      e <- call (CallProvideL1 nextL1) (Node_ProvideL1 nextL1) ;;
      match e with
      | Some _ => log LvlWarn "Failed to provide next L1 block to node"
      | None => ret tt
      end
  end.

Definition onReplaceBlock (replacement : BlockReplacement) : M World unit :=
  log LvlInfo "Node provided replacement block" ;;
  emit (ReplaceBlockEvent (chainID m) replacement).

(** [when] runs a handler on a populated field, as each
    [if ev.X != nil] of [onNodeEvent] does. *)
Definition when {A} (field : option A) (h : A -> M World unit) : M World unit :=
  match field with
  | Some a => h a
  | None => ret tt
  end.

Definition onNodeEvent (ev : option ManagedEvent) : M World unit :=
  match ev with
  | None => log LvlWarn "Received nil event"
  | Some ev =>
      when (ev_Reset ev) onResetEvent ;;
      when (ev_UnsafeBlock ev) onUnsafeBlock ;;
      when (ev_DerivationUpdate ev) onDerivationUpdate ;;
      when (ev_ExhaustL1 ev) onExhaustL1Event ;;
      when (ev_ReplaceBlock ev) onReplaceBlock
  end.

(** The unbounded [for] loop of [PullEvents], with the named result
    [pulledAny] as an accumulator; [None] when [fuel] iterations did not
    reach a [return]. *)
Fixpoint PullEvents_loop (fuel : nat) (pulledAny : bool)
  : M World (option (bool * error)) :=
  match fuel with
  | O => ret None
  | S fuel' =>
      ' (ev, e) <- call CallPullEvent Node_PullEvent ;;
      match e with
      | Some _ =>
          if errors_Is e EOF then ret (Some (pulledAny, None))
          else ret (Some (pulledAny, e))
      | None => onNodeEvent ev ;; PullEvents_loop fuel' true
      end
  end.

Definition PullEvents (fuel : nat) : M World (option (bool * error)) :=
  PullEvents_loop fuel false.

End Engine.

Arguments walkBack {World B N} m attempts u f currentBlock.
Arguments PullEvents_loop {World B N} m fuel pulledAny.

(** ** The bus-event handlers *)

(** Modelled from the spec: [types.BlockSeal] is declared outside this
    file; the spec gives it as a sealed form of a block reference that is
    convertible to a BlockID ([seal.ID()]), and [types.BlockSealFromRef]
    makes one from a block reference.  The handlers only pass seals on, so
    the type and its two operations are taken as given. *)
Class Seals := {
  BlockSeal : Type;
  seal_ID : BlockSeal -> BlockID;
  BlockSealFromRef : BlockRef -> BlockSeal
}.

(** Modelled from the spec: [types.DerivedBlockSealPair], an (L1 source,
    L2 derived) pair of seals; [IDs] is its [IDs()] method. *)
Record DerivedBlockSealPair `{Seals} := mkDerivedBlockSealPair
  { seals_DerivedFrom : BlockSeal; seals_Derived : BlockSeal }.

Definition IDs `{Seals} (pair : DerivedBlockSealPair) : DerivedIDPair :=
  mkDerivedIDPair (seal_ID (seals_DerivedFrom pair)) (seal_ID (seals_Derived pair)).

(** Modelled from the spec: the operations of the Sync Target that the
    bus-event handlers call (the rest of the [SyncControl] interface). *)
Class SyncUpdates (World : Type) `{Seals} := {
  Node_UpdateCrossUnsafe : BlockID -> World -> error * World;
  Node_UpdateCrossSafe : BlockID -> BlockID -> World -> error * World;
  Node_UpdateFinalized : BlockID -> World -> error * World;
  Node_InvalidateBlock : BlockSeal -> World -> error * World
}.

(** The inbound bus events [OnEvent] switches on; [OtherEvent] stands for
    an event of any other type (the [default] case). *)
Inductive bus_event `{Seals} :=
| InvalidateLocalSafeEvent (chain : ChainID) (Candidate : DerivedBlockRefPair)
| CrossUnsafeUpdateEvent (chain : ChainID) (NewCrossUnsafe : BlockSeal)
| CrossSafeUpdateEvent (chain : ChainID) (NewCrossSafe : DerivedBlockSealPair)
| FinalizedL2UpdateEvent (chain : ChainID) (FinalizedL2 : BlockSeal)
| LocalSafeOutOfSyncEvent (chain : ChainID) (L1Ref : BlockRef) (Err : error)
| ChainRewoundEvent (chain : ChainID)
| OtherEvent.

(** The chain an inbound event is addressed to. *)
Definition event_chain `{Seals} (ev : bus_event) : option ChainID :=
  match ev with
  | InvalidateLocalSafeEvent c _ | CrossUnsafeUpdateEvent c _
  | CrossSafeUpdateEvent c _ | FinalizedL2UpdateEvent c _
  | LocalSafeOutOfSyncEvent c _ _ | ChainRewoundEvent c => Some c
  | OtherEvent => None
  end.

(** What a bus-event handler does that an observer can see: an effect of
    the handlers above, or one of the four mutations of the node. *)
Inductive BusEffect `{Seals} :=
| Core (e : Effect)
| CallUpdateCrossUnsafe (id : BlockID)
| CallUpdateCrossSafe (derived derivedFrom : BlockID)
| CallUpdateFinalized (id : BlockID)
| CallInvalidateBlock (seal : BlockSeal).

Definition core_of `{Seals} (e : BusEffect) : Trace :=
  match e with
  | Core e => [e]
  | _ => []
  end.

(** The calls, log lines and emissions of the node-event layer in a bus
    trace. *)
Definition core_trace `{Seals} (t : list BusEffect) : Trace := flat_map core_of t.

Definition mutation_of `{Seals} (e : BusEffect) : list BusEffect :=
  match e with
  | Core _ => []
  | c => [c]
  end.

(** The mutations of the node in a bus trace, in order. *)
Definition mutations `{Seals} (t : list BusEffect) : list BusEffect :=
  flat_map mutation_of t.

Definition MB `{Seals} (World A : Type) : Type := World -> A * World * list BusEffect.

Definition retB `{Seals} {World A} (a : A) : MB World A := fun w => (a, w, []).

Definition bindB `{Seals} {World A C} (c : MB World A) (k : A -> MB World C)
  : MB World C :=
  fun w =>
    let '(a, w1, t1) := c w in
    let '(b, w2, t2) := k a w1 in
    (b, w2, t1 ++ t2).

Definition callB `{Seals} {World A} (e : BusEffect) (op : World -> A * World)
  : MB World A :=
  fun w => let '(a, w1) := op w in (a, w1, [e]).

(** A handler of the node-event layer run from the bus layer. *)
Definition liftB `{Seals} {World A} (c : M World A) : MB World A :=
  fun w => let '(a, w1, t) := c w in (a, w1, map Core t).

Definition logB `{Seals} {World} (lvl : Level) (msg : string) : MB World unit :=
  fun w => (tt, w, [Core (Log lvl msg)]).

Definition bus_value_of `{Seals} {World A} (r : A * World * list BusEffect) : A :=
  fst (fst r).
Definition bus_world_of `{Seals} {World A} (r : A * World * list BusEffect) : World :=
  snd (fst r).
Definition bus_trace_of `{Seals} {World A} (r : A * World * list BusEffect)
  : list BusEffect := snd r.

Declare Scope bus_scope.
Delimit Scope bus_scope with bus.
Notation "x <- c ;; k" := (bindB c (fun x => k))
  (at level 100, c at next level, right associativity) : bus_scope.
Notation "c ;; k" := (bindB c (fun _ => k))
  (at level 100, right associativity) : bus_scope.

Section Bus.

Context {World : Type} {B : backend World} {N : SyncControl World}.
Context {SL : Seals} {U : SyncUpdates World}.
Variable m : ManagedNode.

Local Open Scope bus_scope.

Definition onCrossUnsafeUpdate (seal : BlockSeal) : MB World unit :=
  logB LvlDebug "updating cross unsafe" ;;
  e <- callB (CallUpdateCrossUnsafe (seal_ID seal))
             (Node_UpdateCrossUnsafe (seal_ID seal)) ;;
  match e with
  | Some _ => logB LvlWarn "Node failed cross-unsafe updating"
  | None => retB tt
  end.

Definition onCrossSafeUpdate (pair : DerivedBlockSealPair) : MB World unit :=
  logB LvlDebug "updating cross safe" ;;
  let pairIDs := IDs pair in
  e <- callB (CallUpdateCrossSafe (Derived pairIDs) (DerivedFrom pairIDs))
             (Node_UpdateCrossSafe (Derived pairIDs) (DerivedFrom pairIDs)) ;;
  match e with
  | Some _ => logB LvlWarn "Node failed cross-safe updating"
  | None => retB tt
  end.

Definition onFinalizedL2 (seal : BlockSeal) : MB World unit :=
  logB LvlInfo "updating finalized L2" ;;
  e <- callB (CallUpdateFinalized (seal_ID seal))
             (Node_UpdateFinalized (seal_ID seal)) ;;
  match e with
  | Some _ => logB LvlWarn "Node failed finality updating"
  | None => retB tt
  end.

Definition onInvalidateLocalSafe (invalidated : DerivedBlockRefPair) : MB World unit :=
  logB LvlWarn "Instructing node to replace invalidated local-safe block" ;;
  let seal := BlockSealFromRef (pair_Derived invalidated) in
  e <- callB (CallInvalidateBlock seal) (Node_InvalidateBlock seal) ;;
  match e with
  | Some _ => logB LvlWarn "Node is unable to invalidate block"
  | None => retB tt
  end.

(** [OnEvent]: every case first drops an event of another chain. *)
Definition OnEvent (ev : bus_event) : MB World bool :=
  match ev with
  | InvalidateLocalSafeEvent c Candidate =>
      if negb (c =? chainID m) then retB false
      else onInvalidateLocalSafe Candidate ;; retB true
  | CrossUnsafeUpdateEvent c NewCrossUnsafe =>
      if negb (c =? chainID m) then retB false
      else onCrossUnsafeUpdate NewCrossUnsafe ;; retB true
  | CrossSafeUpdateEvent c NewCrossSafe =>
      if negb (c =? chainID m) then retB false
      else onCrossSafeUpdate NewCrossSafe ;; retB true
  | FinalizedL2UpdateEvent c FinalizedL2 =>
      if negb (c =? chainID m) then retB false
      else onFinalizedL2 FinalizedL2 ;; retB true
  | LocalSafeOutOfSyncEvent c L1Ref Err =>
      if negb (c =? chainID m) then retB false
      else liftB (resetSignal m Err L1Ref) ;; retB true
  | ChainRewoundEvent c =>
      if negb (c =? chainID m) then retB false
      else liftB (sendReset m) ;; retB true
  | OtherEvent => retB false
  end.

End Bus.

(** ** A node that keeps a journal of its answers *)

(** The arguments of a [Reset] call with the answer the node gave to it. *)
Definition Journal := list (BlockID * BlockID * BlockID * error).

(** An operation run on the world beside a journal it does not touch. *)
Definition keep_journal {World A} (op : World -> A * World)
  : World * Journal -> A * (World * Journal) :=
  fun wj => let '(a, w1) := op (fst wj) in (a, (w1, snd wj)).

(** The same backend, beside a journal. *)
Definition recording_backend {World} (B : backend World) : backend (World * Journal) :=
  {| LocalSafe := fun c => keep_journal (LocalSafe c);
     LocalUnsafe := fun c => keep_journal (LocalUnsafe c);
     CrossSafe := fun c => keep_journal (CrossSafe c);
     SafeDerivedAt := fun c d => keep_journal (SafeDerivedAt c d);
     Finalized := fun c => keep_journal (Finalized c);
     L1BlockRefByNumber := fun n => keep_journal (L1BlockRefByNumber n) |}.

Definition journal_add (j : Journal) (u s f : BlockID) (e : error) : Journal :=
  j ++ [((u, s, f), e)].

(** The same node, except that it appends to the journal, at every
    [Reset] call, the arguments of the call and the answer it gives. *)
Definition recording_node {World} (N : SyncControl World) : SyncControl (World * Journal) :=
  {| Node_Reset := fun u s f wj =>
       let '(e, w1) := Node_Reset u s f (fst wj) in
       (e, (w1, journal_add (snd wj) u s f e));
     Node_ProvideL1 := fun r => keep_journal (Node_ProvideL1 r);
     Node_PullEvent := keep_journal Node_PullEvent |}.

(** A journal entry whose answer is an error. *)
Definition refused (x : BlockID * BlockID * BlockID * error) : Prop := snd x <> None.

(** What the journal of a run of the resolver looks like, by its result:
    on success the last entry is an accepted reset with the resolver's
    [u] and [f] and every entry before it is a refusal; on an error every
    entry is a refusal. *)
Definition journal_shape (u f : BlockID) (v : error) (j : Journal) : Prop :=
  match v with
  | None => exists pre safe, j = pre ++ [((u, safe, f), None)] /\ Forall refused pre
  | Some _ => Forall refused j
  end.

(** ** Reading which handlers ran *)

(** The five handlers [onNodeEvent] can run, in the order of its [if]s. *)
Inductive Handler :=
| HReset | HUnsafeBlock | HDerivationUpdate | HExhaustL1 | HReplaceBlock.

Definition tag {A} (field : option A) (h : Handler) : list Handler :=
  match field with
  | Some _ => [h]
  | None => []
  end.

(** The variants an event carries, in the dispatcher's fixed order. *)
Definition populated (ev : ManagedEvent) : list Handler :=
  tag (ev_Reset ev) HReset ++
  tag (ev_UnsafeBlock ev) HUnsafeBlock ++
  tag (ev_DerivationUpdate ev) HDerivationUpdate ++
  tag (ev_ExhaustL1 ev) HExhaustL1 ++
  tag (ev_ReplaceBlock ev) HReplaceBlock.

(** The bus events a node event gives rise to, in the dispatcher's order. *)
Definition relayed (m : ManagedNode) (ev : ManagedEvent) : list superevent :=
  match ev_UnsafeBlock ev with
  | Some r => [LocalUnsafeReceivedEvent (chainID m) r]
  | None => []
  end ++
  match ev_DerivationUpdate ev with
  | Some p => [LocalDerivedEvent (chainID m) p]
  | None => []
  end ++
  match ev_ReplaceBlock ev with
  | Some r => [ReplaceBlockEvent (chainID m) r]
  | None => []
  end.

(** Every handler opens with a log line of its own; no other line of the
    file has the same level and text. *)
Definition handler_entry (e : Effect) : list Handler :=
  match e with
  | Log LvlWarn msg =>
      if String.eqb msg "Node sent us a reset error" then [HReset] else []
  | Log LvlInfo msg =>
      if String.eqb msg "Node has new unsafe block" then [HUnsafeBlock]
      else if String.eqb msg "Node derived new block" then [HDerivationUpdate]
      else if String.eqb msg "Node completed syncing" then [HExhaustL1]
      else if String.eqb msg "Node provided replacement block" then [HReplaceBlock]
      else []
  | _ => []
  end.

(** The handlers that ran in a trace, in order, one entry per run. *)
Definition handlers_fired (t : Trace) : list Handler := flat_map handler_entry t.

(** At least one event was pulled. *)
Definition pulled_any {A} (evs : list A) : bool :=
  match evs with
  | [] => false
  | _ :: _ => true
  end.

(** What [PullEvents] hands back when the source fails with [e]:
    end-of-stream is not an error. *)
Definition terminal_error (e : err) : error :=
  if errors_Is (Some e) EOF then None else Some e.

(** [hi; hi - 1; ...], [n] numbers. *)
Fixpoint countdown (n : nat) (hi : Z) : list Z :=
  match n with
  | O => []
  | S k => hi :: countdown k (hi - 1)
  end.

(** ** Reading what a pull or a bus event gave rise to *)

(** A pulled event may be absent (a nil pointer with a nil error). *)
Definition populated_of (ev : option ManagedEvent) : list Handler :=
  match ev with
  | Some ev => populated ev
  | None => []
  end.

Definition relayed_of (m : ManagedNode) (ev : option ManagedEvent) : list superevent :=
  match ev with
  | Some ev => relayed m ev
  | None => []
  end.

(** Log lines and bus emissions involve neither collaborator. *)
Definition is_local (e : Effect) : bool :=
  match e with
  | Log _ _ | Emit _ => true
  | _ => false
  end.

Definition is_log (e : Effect) : bool :=
  match e with
  | Log _ _ => true
  | _ => false
  end.

(** The mutation of the node an inbound bus event asks for: one call for
    an update or an invalidation addressed to this chain, none otherwise. *)
Definition forwarded `{Seals} (m : ManagedNode) (ev : bus_event) : list BusEffect :=
  match ev with
  | InvalidateLocalSafeEvent c Candidate =>
      if c =? chainID m
      then [CallInvalidateBlock (BlockSealFromRef (pair_Derived Candidate))]
      else []
  | CrossUnsafeUpdateEvent c NewCrossUnsafe =>
      if c =? chainID m then [CallUpdateCrossUnsafe (seal_ID NewCrossUnsafe)] else []
  | CrossSafeUpdateEvent c NewCrossSafe =>
      if c =? chainID m
      then [CallUpdateCrossSafe (seal_ID (seals_Derived NewCrossSafe))
                                (seal_ID (seals_DerivedFrom NewCrossSafe))]
      else []
  | FinalizedL2UpdateEvent c FinalizedL2 =>
      if c =? chainID m then [CallUpdateFinalized (seal_ID FinalizedL2)] else []
  | LocalSafeOutOfSyncEvent _ _ _ | ChainRewoundEvent _ | OtherEvent => []
  end.

(** The events whose handling is a single forwarded mutation. *)
Definition is_forwarding `{Seals} (ev : bus_event) : bool :=
  match ev with
  | InvalidateLocalSafeEvent _ _ | CrossUnsafeUpdateEvent _ _
  | CrossSafeUpdateEvent _ _ | FinalizedL2UpdateEvent _ _ => true
  | _ => false
  end.

(** ** What the collaborators are assumed to do in a scenario *)

Section Scenarios.

Context {World : Type} {B : backend World} {N : SyncControl World}.
Variable m : ManagedNode.

(** The oracle answers the query [q] with a block of number [n], in every
    world. *)
Definition oracle_yields (q : BlockID) (n : Z) : Prop :=
  forall w, snd (fst (SafeDerivedAt (chainID m) q w)) = None /\
            id_Number (fst (fst (SafeDerivedAt (chainID m) q w))) = n.

(** The oracle derives a block of number [S] for [l1Ref], and answers a
    walk-back query by number, for the numbers strictly between [F] and
    [S], with the block of that number. *)
Definition oracle_by_number (l1Ref : BlockRef) (F S : Z) : Prop :=
  oracle_yields (ID l1Ref) S /\
  forall n, F < n < S -> oracle_yields (mkBlockID 0 n) n.

Definition reset_accepts (u f safe : BlockID) : Prop :=
  forall w, fst (Node_Reset u safe f w) = None.

(** The node refuses the candidate with "block not found" or "conflicting
    block", in every world. *)
Definition reset_rejects_walkable (u f safe : BlockID) : Prop :=
  forall w, walkable (fst (Node_Reset u safe f w)) = true.

(** Finalized is [F], the oracle's starting candidate is [S], and the node
    accepts a reset at candidate number [C] and refuses, with a walkable
    code, at every number in (C, S]. *)
Definition WalkBackScenario (l1Ref : BlockRef) (u f : BlockID) (S C : Z) : Prop :=
  0 <= id_Number f /\ id_Number f < C /\ C <= S /\ S < uint64_modulus /\
  oracle_by_number l1Ref (id_Number f) S /\
  (forall safe, id_Number safe = C -> reset_accepts u f safe) /\
  (forall safe, C < id_Number safe <= S -> reset_rejects_walkable u f safe).

(** Finalized is [F], the starting candidate is [S > F], and the node
    refuses every candidate in (F, S] with a walkable code. *)
Definition ExhaustionScenario (l1Ref : BlockRef) (u f : BlockID) (S : Z) : Prop :=
  0 <= id_Number f /\ id_Number f < S /\ S < uint64_modulus /\
  oracle_by_number l1Ref (id_Number f) S /\
  (forall safe, id_Number f < id_Number safe <= S -> reset_rejects_walkable u f safe).

(** The pull loop as the specification words it: the source, interleaved
    with the dispatch of what it yields, produces the events [evs] one
    after the other and then fails with [e]; the run goes from world [w]
    to [w'] and leaves the trace [t]. *)
Inductive Pulls : World -> list (option ManagedEvent) -> err -> World -> Trace -> Prop :=
| Pulls_stop w ev e w1 :
    Node_PullEvent w = ((ev, Some e), w1) ->
    Pulls w [] e w1 [CallPullEvent]
| Pulls_next w ev w1 w2 t1 evs e w3 t2 :
    Node_PullEvent w = ((ev, None), w1) ->
    onNodeEvent m ev w1 = (tt, w2, t1) ->
    Pulls w2 evs e w3 t2 ->
    Pulls w (ev :: evs) e w3 (CallPullEvent :: t1 ++ t2).

End Scenarios.

(** The ways [resolveConflict] can end other than at the finalized
    boundary: success, a failed oracle read during the walk, a reset
    refused with a code that is not walkable, or the attempt bound. *)
Definition stopped_without_boundary (v : error) : Prop :=
  v = None \/
  (exists n e, v = Some (Errorf "failed to retrieve safe block %d: %w"
                                [ArgNum n] (Some e))) \/
  (exists n e, v = Some (Errorf "error during reset at block %d: %w"
                                [ArgNum n] (Some e)) /\
               walkable (Some e) = false) \/
  v = Some (Errorf "exceeded maximum walk-back attempts (%d)"
                   [ArgNum maxWalkBackAttempts] None).

(** ** A scripted world for examples *)

(** The answers of the collaborators, as functions of the arguments. *)
Record Responses := mkResponses
  { r_LocalSafe : DerivedIDPair * error;
    r_LocalUnsafe : BlockID * error;
    r_CrossSafe : DerivedIDPair * error;
    r_SafeDerivedAt : BlockID -> BlockID * error;
    r_Finalized : BlockID * error;
    r_L1BlockRefByNumber : Z -> BlockRef * error;
    r_Reset : BlockID -> BlockID -> BlockID -> error;
    r_ProvideL1 : BlockRef -> error }.

(** The world is the queue of answers [PullEvent] has yet to give; an
    empty queue answers end-of-stream. *)
Definition Queue := list (option ManagedEvent * error).

Definition sim_backend (r : Responses) : backend Queue :=
  {| LocalSafe := fun _ w => (r_LocalSafe r, w);
     LocalUnsafe := fun _ w => (r_LocalUnsafe r, w);
     CrossSafe := fun _ w => (r_CrossSafe r, w);
     SafeDerivedAt := fun _ d w => (r_SafeDerivedAt r d, w);
     Finalized := fun _ w => (r_Finalized r, w);
     L1BlockRefByNumber := fun n w => (r_L1BlockRefByNumber r n, w) |}.

Definition sim_node (r : Responses) : SyncControl Queue :=
  {| Node_Reset := fun u s f w => (r_Reset r u s f, w);
     Node_ProvideL1 := fun ref w => (r_ProvideL1 r ref, w);
     Node_PullEvent := fun w =>
       match w with
       | [] => ((None, Some (Sentinel EOF)), [])
       | a :: w' => (a, w')
       end |}.

Definition BlockID_eqb (a b : BlockID) : bool :=
  (id_Hash a =? id_Hash b) && (id_Number a =? id_Number b).

Definition conflicting : err := JsonError conflictingBlockRPCErrCode "conflicting block".
Definition notFound : err := JsonError blockNotFoundRPCErrCode "block not found".

(** An oracle that derives block [S] from the L1 block [l1] and otherwise
    answers by number, and a node that accepts a reset at number [C] only,
    refusing the others with "conflicting block". *)
Definition walk_responses (l1 : BlockID) (F S C : Z) : Responses :=
  {| r_LocalSafe := (zeroDerivedIDPair, None);
     r_LocalUnsafe := (mkBlockID 9 (S + 10), None);
     r_CrossSafe := (zeroDerivedIDPair, None);
     r_SafeDerivedAt := fun d =>
       if BlockID_eqb d l1 then (mkBlockID 1 S, None)
       else (mkBlockID 1 (id_Number d), None);
     r_Finalized := (mkBlockID 2 F, None);
     r_L1BlockRefByNumber := fun n => (mkBlockRef 3 n 0 0, None);
     r_Reset := fun _ safe _ =>
       if id_Number safe =? C then None else Some conflicting;
     r_ProvideL1 := fun _ => None |}.

Definition sim_l1 : BlockRef := mkBlockRef 7 40 6 0.
Definition sim_node_m : ManagedNode := mkManagedNode 10.

(** The scripted answers used in the examples: finalized 100, first
    candidate 150, common ancestor 120. *)
Definition base_responses : Responses := walk_responses (ID sim_l1) 100 150 120.

Definition with_Reset (r : Responses) (g : BlockID -> BlockID -> BlockID -> error)
  : Responses :=
  {| r_LocalSafe := r_LocalSafe r; r_LocalUnsafe := r_LocalUnsafe r;
     r_CrossSafe := r_CrossSafe r; r_SafeDerivedAt := r_SafeDerivedAt r;
     r_Finalized := r_Finalized r; r_L1BlockRefByNumber := r_L1BlockRefByNumber r;
     r_Reset := g; r_ProvideL1 := r_ProvideL1 r |}.

Definition with_SafeDerivedAt (r : Responses) (g : BlockID -> BlockID * error)
  : Responses :=
  {| r_LocalSafe := r_LocalSafe r; r_LocalUnsafe := r_LocalUnsafe r;
     r_CrossSafe := r_CrossSafe r; r_SafeDerivedAt := g;
     r_Finalized := r_Finalized r; r_L1BlockRefByNumber := r_L1BlockRefByNumber r;
     r_Reset := r_Reset r; r_ProvideL1 := r_ProvideL1 r |}.


Definition with_LocalUnsafe (r : Responses) (a : BlockID * error) : Responses :=
  {| r_LocalSafe := r_LocalSafe r; r_LocalUnsafe := a;
     r_CrossSafe := r_CrossSafe r; r_SafeDerivedAt := r_SafeDerivedAt r;
     r_Finalized := r_Finalized r; r_L1BlockRefByNumber := r_L1BlockRefByNumber r;
     r_Reset := r_Reset r; r_ProvideL1 := r_ProvideL1 r |}.


Definition with_Finalized (r : Responses) (a : BlockID * error) : Responses :=
  {| r_LocalSafe := r_LocalSafe r; r_LocalUnsafe := r_LocalUnsafe r;
     r_CrossSafe := r_CrossSafe r; r_SafeDerivedAt := r_SafeDerivedAt r;
     r_Finalized := a; r_L1BlockRefByNumber := r_L1BlockRefByNumber r;
     r_Reset := r_Reset r; r_ProvideL1 := r_ProvideL1 r |}.

Definition with_L1BlockRefByNumber (r : Responses) (g : Z -> BlockRef * error)
  : Responses :=
  {| r_LocalSafe := r_LocalSafe r; r_LocalUnsafe := r_LocalUnsafe r;
     r_CrossSafe := r_CrossSafe r; r_SafeDerivedAt := r_SafeDerivedAt r;
     r_Finalized := r_Finalized r; r_L1BlockRefByNumber := g;
     r_Reset := r_Reset r; r_ProvideL1 := r_ProvideL1 r |}.

(** The handlers run against scripted answers. *)
Definition sim_resolveConflict (r : Responses) (l1Ref : BlockRef) (u f : BlockID)
  : Queue -> error * Queue * Trace :=
  @resolveConflict Queue (sim_backend r) (sim_node r) sim_node_m l1Ref u f.

Definition sim_resetSignal (r : Responses) (errSignal : error) (l1Ref : BlockRef)
  : Queue -> unit * Queue * Trace :=
  @resetSignal Queue (sim_backend r) (sim_node r) sim_node_m errSignal l1Ref.


Definition sim_onExhaustL1Event (r : Responses) (completed : DerivedBlockRefPair)
  : Queue -> unit * Queue * Trace :=
  @onExhaustL1Event Queue (sim_backend r) (sim_node r) completed.

Definition sim_onNodeEvent (r : Responses) (ev : option ManagedEvent)
  : Queue -> unit * Queue * Trace :=
  @onNodeEvent Queue (sim_backend r) (sim_node r) sim_node_m ev.

Definition sim_PullEvents (r : Responses) (fuel : nat)
  : Queue -> option (bool * error) * Queue * Trace :=
  @PullEvents Queue (sim_backend r) (sim_node r) sim_node_m fuel.

Definition sim_u : BlockID := mkBlockID 9 160.
Definition sim_f : BlockID := mkBlockID 2 100.
Definition emptyEvent : ManagedEvent := mkManagedEvent None None None None None.

(** A node that refuses every reset with "conflicting block". *)
Definition refuse_all (F S : Z) : Responses :=
  with_Reset (walk_responses (ID sim_l1) F S 0) (fun _ _ _ => Some conflicting).

(** A node whose reset fails with an error that carries no remote code,
    and an oracle whose reads fail. *)
Definition reset_times_out : Responses :=
  with_Reset base_responses (fun _ _ _ => Some (Opaque "context deadline exceeded")).

Definition oracle_down : Responses :=
  with_SafeDerivedAt base_responses (fun _ => (zeroBlockID, Some (Sentinel NotFound))).


Definition outOfOrder : error :=
  Some (Errorf "block out of order: %w" [] (Some (Sentinel ErrOutOfOrder))).

(** Backends with one failing read. *)
Definition local_unsafe_down : Responses :=
  with_LocalUnsafe base_responses (zeroBlockID, Some (Opaque "db closed")).


Definition finalized_down : Responses :=
  with_Finalized base_responses (zeroBlockID, Some (Opaque "db closed")).


Definition l1_not_found : Responses :=
  with_L1BlockRefByNumber base_responses
    (fun _ => (zeroBlockRef, Some (Errorf "next L1: %w" [] (Some (Sentinel NotFound))))).

Definition l1_broken : Responses :=
  with_L1BlockRefByNumber base_responses
    (fun _ => (zeroBlockRef, Some (Opaque "connection refused"))).



Definition completed_at_40 : DerivedBlockRefPair :=
  mkDerivedBlockRefPair sim_l1 (mkBlockRef 1 150 0 0).

Definition sim_unsafe_ref : BlockRef := mkBlockRef 4 161 9 12.

Definition unsafe_only : ManagedEvent :=
  mkManagedEvent None (Some sim_unsafe_ref) None None None.

(** An event carrying three variants at once. *)
Definition three_variants : ManagedEvent :=
  mkManagedEvent (Some "reset requested"%string) (Some sim_unsafe_ref) None
                 (Some completed_at_40) None.

(** Seals for the examples: a block identity with its timestamp. *)
Definition sim_seals : Seals :=
  {| BlockSeal := BlockID * Z;
     seal_ID := fst;
     BlockSealFromRef := fun r => (ID r, ref_Time r) |}.

(** A node whose mutations all succeed, or all fail. *)
Definition sim_updates (fails : bool) : @SyncUpdates Queue sim_seals :=
  let answer : error := if fails then Some (Opaque "node unreachable") else None in
  {| Node_UpdateCrossUnsafe := fun _ w => (answer, w);
     Node_UpdateCrossSafe := fun _ _ w => (answer, w);
     Node_UpdateFinalized := fun _ w => (answer, w);
     Node_InvalidateBlock := fun _ w => (answer, w) |}.

Definition sim_OnEvent (r : Responses) (fails : bool) (ev : @bus_event sim_seals)
  : Queue -> bool * Queue * list (@BusEffect sim_seals) :=
  @OnEvent Queue (sim_backend r) (sim_node r) sim_seals (sim_updates fails)
           sim_node_m ev.

Definition sim_onResetEvent (r : Responses) (errStr : string)
  : Queue -> unit * Queue * Trace :=
  @onResetEvent Queue (sim_backend r) (sim_node r) sim_node_m errStr.

Definition sim_seal_pair : @DerivedBlockSealPair sim_seals :=
  @mkDerivedBlockSealPair sim_seals (mkBlockID 7 40, 12) (mkBlockID 1 140, 15).

(** An oracle with a gap at number 130, and a node that answers the
    candidate 130 with an error that carries no remote code; both refuse
    the other candidates with "conflicting block". *)
Definition oracle_gap : Responses :=
  with_SafeDerivedAt (refuse_all 100 150)
    (fun d =>
       if BlockID_eqb d (ID sim_l1) then (mkBlockID 1 150, None)
       else if id_Number d =? 130 then (zeroBlockID, Some (Sentinel NotFound))
       else (mkBlockID 1 (id_Number d), None)).

Definition reset_breaks_at_130 : Responses :=
  with_Reset base_responses
    (fun _ safe _ =>
       if id_Number safe =? 130 then Some (Opaque "engine busy")
       else Some conflicting).

(** A world that counts the resets it has seen: the node refuses the
    first with "conflicting block" and accepts from the second on. *)
Definition counting_backend : backend nat :=
  {| LocalSafe := fun _ w => ((zeroDerivedIDPair, None), w);
     LocalUnsafe := fun _ w => ((sim_u, None), w);
     CrossSafe := fun _ w => ((zeroDerivedIDPair, None), w);
     SafeDerivedAt := fun _ d w =>
       ((if BlockID_eqb d (ID sim_l1) then mkBlockID 1 150
         else mkBlockID 1 (id_Number d), None), w);
     Finalized := fun _ w => ((sim_f, None), w);
     L1BlockRefByNumber := fun n w => ((mkBlockRef 3 n 0 0, None), w) |}.

Definition counting_node : SyncControl nat :=
  {| Node_Reset := fun _ _ _ w =>
       (match w with O => Some conflicting | S _ => None end, S w);
     Node_ProvideL1 := fun _ w => (None, w);
     Node_PullEvent := fun w => ((None, Some (Sentinel EOF)), w) |}.

(** The node of the end-to-end scenario (finalized 100, first candidate
    150, accepted candidate 120) with an oracle that has no block at 130,
    and with an oracle that answers a walk-back read at number [n] with
    the block numbered [n - 100]. *)
Definition gap_before_ancestor : Responses :=
  with_SafeDerivedAt base_responses
    (fun d =>
       if BlockID_eqb d (ID sim_l1) then (mkBlockID 1 150, None)
       else if id_Number d =? 130 then (zeroBlockID, Some (Sentinel NotFound))
       else (mkBlockID 1 (id_Number d), None)).

Definition shifted_oracle : Responses :=
  with_SafeDerivedAt base_responses
    (fun d =>
       if BlockID_eqb d (ID sim_l1) then (mkBlockID 1 150, None)
       else (mkBlockID 1 (id_Number d - 100), None)).

(** ** Proof automation *)

(** Unfold the monadic plumbing of a handler down to the calls. *)
Ltac step := unfold log, emit; unfold bind, call, tell, ret; cbn beta iota zeta.

(** Project the components of a finished run. *)
Ltac proj_run := unfold value_of, trace_of, world_of in *; cbn [fst snd] in *.

(** Read the resets and the oracle reads off a trace given by its first
    effects. *)
Ltac norm_trace :=
  cbn [app];
  repeat (change (resets (?e :: ?t)) with (reset_of e ++ resets t));
  repeat (change (oracle_queries (?e :: ?t))
            with (oracle_query_of e ++ oracle_queries t));
  change (resets []) with (@nil (BlockID * BlockID * BlockID));
  change (oracle_queries []) with (@nil BlockID);
  cbn [reset_of oracle_query_of app List.length].

(** * Properties *)

(** ** Errors and machine integers *)

Lemma uint64_small (z : Z) : 0 <= z < uint64_modulus -> uint64 z = z.
Proof. intros H. unfold uint64. now apply Z.mod_small. Qed.

Lemma uint64_wraps_below_zero : uint64 (0 - 1) = uint64_max.
Proof. reflexivity. Qed.

Lemma sentinel_eqb_eq (a b : sentinel) : sentinel_eqb a b = true -> a = b.
Proof. destruct a, b; simpl; intros H; congruence. Qed.

(** An error chain ends in at most one sentinel. *)
Lemma chain_is_unique :
  forall e s1 s2, chain_is e s1 = true -> chain_is e s2 = true -> s1 = s2.
Proof.
  fix IH 1.
  intros [s | code msg | msg | fmt args [inner |]] s1 s2; simpl; intros H1 H2;
    try discriminate.
  - apply sentinel_eqb_eq in H1, H2. congruence.
  - exact (IH inner s1 s2 H1 H2).
Qed.

Lemma errors_Is_exclusive (e : error) (s1 s2 : sentinel) :
  errors_Is e s1 = true -> s1 <> s2 -> errors_Is e s2 = false.
Proof.
  destruct e as [e |]; simpl; intros H1 Hne; [| reflexivity].
  destruct (chain_is e s2) eqn:H2; [| reflexivity].
  exfalso. apply Hne. exact (chain_is_unique e s1 s2 H1 H2).
Qed.

Section Proofs.

Context {World : Type} {B : backend World} {N : SyncControl World}.
Variable m : ManagedNode.

(** ** The conflict resolver: short circuits *)

(** C3. If the first reset, at the block the oracle derives for [l1Ref],
    fails with a code that is neither "block not found" nor "conflicting
    block", [resolveConflict] returns that error (wrapped) at once: its
    whole trace is the one oracle read and the one reset.  If the oracle
    read itself fails, it returns the error (wrapped) after that read
    alone, with no reset. *)
Theorem resolveConflict_short_circuits :
  forall (l1Ref : BlockRef) (u f : BlockID) (w : World),
    (forall s e w1 w2,
        SafeDerivedAt (chainID m) (ID l1Ref) w = ((s, None), w1) ->
        Node_Reset u s f w1 = (Some e, w2) ->
        walkable (Some e) = false ->
        resolveConflict m l1Ref u f w =
          (Some (Errorf "error during reset: %w" [] (Some e)), w2,
           [CallSafeDerivedAt (chainID m) (ID l1Ref);
            Log LvlDebug "Attempting reset";
            CallReset u s f])) /\
    (forall s e w1,
        SafeDerivedAt (chainID m) (ID l1Ref) w = ((s, Some e), w1) ->
        resolveConflict m l1Ref u f w =
          (Some (Errorf "failed to retrieve safe block for %v: %w"
                        [ArgID (ID l1Ref)] (Some e)), w1,
           [CallSafeDerivedAt (chainID m) (ID l1Ref)])).
Proof.
  intros l1Ref u f w. split.
  - intros s e w1 w2 Hs Hr Hw.
    unfold resolveConflict, tryReset. step.
    rewrite Hs. cbn. rewrite Hr. cbn. rewrite Hw. reflexivity.
  - intros s e w1 Hs.
    unfold resolveConflict. step. rewrite Hs. reflexivity.
Qed.

(** ** The reset signal *)

(** C5. [resetSignal] stops after a failed local-unsafe read, and after a
    failed finalized read: its trace is then the reads and one warning, so
    the conflict resolver is not entered (no [SafeDerivedAt] read) and no
    reset is sent.  With both reads successful and a signal that is none
    of Conflict, Future and OutOfOrder, nothing follows the two reads. *)
Theorem resetSignal_aborts_without_reference_points :
  forall (errSignal : error) (l1Ref : BlockRef) (w : World),
    (forall u e w1,
        LocalUnsafe (chainID m) w = ((u, Some e), w1) ->
        resetSignal m errSignal l1Ref w =
          (tt, w1, [CallLocalUnsafe (chainID m);
                    Log LvlWarn "Failed to retrieve local-unsafe"])) /\
    (forall u w1 f e w2,
        LocalUnsafe (chainID m) w = ((u, None), w1) ->
        Finalized (chainID m) w1 = ((f, Some e), w2) ->
        resetSignal m errSignal l1Ref w =
          (tt, w2, [CallLocalUnsafe (chainID m); CallFinalized (chainID m);
                    Log LvlWarn "Failed to retrieve finalized"])) /\
    (forall u w1 f w2,
        LocalUnsafe (chainID m) w = ((u, None), w1) ->
        Finalized (chainID m) w1 = ((f, None), w2) ->
        errors_Is errSignal ErrConflict = false ->
        errors_Is errSignal ErrFuture = false ->
        errors_Is errSignal ErrOutOfOrder = false ->
        resetSignal m errSignal l1Ref w =
          (tt, w2, [CallLocalUnsafe (chainID m); CallFinalized (chainID m)])).
Proof.
  intros errSignal l1Ref w. repeat split.
  - intros u e w1 Hu. unfold resetSignal. step. rewrite Hu. reflexivity.
  - intros u w1 f e w2 Hu Hf. unfold resetSignal. step.
    rewrite Hu. cbn. rewrite Hf. reflexivity.
  - intros u w1 f w2 Hu Hf Hc Hfu Ho. unfold resetSignal. step.
    rewrite Hu. cbn. rewrite Hf. cbn. rewrite Hc, Hfu, Ho. reflexivity.
Qed.


(** ** The full reset *)


(** ** The L1 feeder *)

(** C9. On ExhaustL1 the engine reads the L1 block at number
    [completed.DerivedFrom.Number + 1] (in uint64 arithmetic).  A "not
    found" failure ends the handler with a debug line, any other failure
    with an error line, in both cases without a [ProvideL1] call, and the
    handler returns nothing to its caller.  On success exactly one
    [ProvideL1] call is made, with the block that was read. *)
Theorem onExhaustL1Event_feeds_next_L1 :
  forall (completed : DerivedBlockRefPair) (w : World),
    let n := ref_Number (pair_DerivedFrom completed) in
    let number := uint64 (n + 1) in
    (0 <= n < uint64_max -> number = n + 1) /\
    (forall b e w1,
        L1BlockRefByNumber number w = ((b, Some e), w1) ->
        errors_Is (Some e) NotFound = true ->
        onExhaustL1Event completed w =
          (tt, w1, [Log LvlInfo "Node completed syncing";
                    CallL1BlockRefByNumber number;
                    Log LvlDebug "Next L1 block is not yet available"])) /\
    (forall b e w1,
        L1BlockRefByNumber number w = ((b, Some e), w1) ->
        errors_Is (Some e) NotFound = false ->
        onExhaustL1Event completed w =
          (tt, w1, [Log LvlInfo "Node completed syncing";
                    CallL1BlockRefByNumber number;
                    Log LvlError "Failed to retrieve next L1 block for node"])) /\
    (forall b w1,
        L1BlockRefByNumber number w = ((b, None), w1) ->
        trace_of (onExhaustL1Event completed w) =
          [Log LvlInfo "Node completed syncing";
           CallL1BlockRefByNumber number;
           CallProvideL1 b] ++
          match fst (Node_ProvideL1 b w1) with
          | Some _ => [Log LvlWarn "Failed to provide next L1 block to node"]
          | None => []
          end /\
        provided (trace_of (onExhaustL1Event completed w)) = [b]).
Proof.
  intros completed w n number. split; [| split; [| split]].
  - intros Hn. unfold number. apply uint64_small.
    unfold uint64_max in Hn. lia.
  - intros b e w1 Hb He. unfold onExhaustL1Event. step.
    fold n. fold number. rewrite Hb. cbn. simpl in He. rewrite He. reflexivity.
  - intros b e w1 Hb He. unfold onExhaustL1Event. step.
    fold n. fold number. rewrite Hb. cbn. simpl in He. rewrite He. reflexivity.
  - intros b w1 Hb. unfold onExhaustL1Event. step.
    fold n. fold number. rewrite Hb. cbn.
    destruct (Node_ProvideL1 b w1) as [[e' |] w2]; split; reflexivity.
Qed.

(** ** The node-event dispatcher *)

Lemma trace_of_bind {A C} (c : M World A) (k : A -> M World C) (w : World) :
  trace_of (bind c k w) =
  trace_of (c w) ++ trace_of (k (value_of (c w)) (world_of (c w))).
Proof.
  unfold bind, trace_of, value_of, world_of.
  destruct (c w) as [[a w1] t1]. cbn.
  destruct (k a w1) as [[b w2] t2]. reflexivity.
Qed.

Lemma handlers_fired_app (t1 t2 : Trace) :
  handlers_fired (t1 ++ t2) = handlers_fired t1 ++ handlers_fired t2.
Proof. apply flat_map_app. Qed.

Lemma emitted_app (t1 t2 : Trace) : emitted (t1 ++ t2) = emitted t1 ++ emitted t2.
Proof. apply flat_map_app. Qed.

(** A Future reset signal opens no handler and emits nothing. *)
Lemma resetSignal_Future_quiet (l1Ref : BlockRef) (w : World) :
  let t := trace_of (resetSignal m (Some (Sentinel ErrFuture)) l1Ref w) in
  handlers_fired t = [] /\ emitted t = [].
Proof.
  unfold resetSignal. step.
  destruct (LocalUnsafe (chainID m) w) as [[u [e |]] w1]; cbn; [auto |].
  destruct (Finalized (chainID m) w1) as [[f [e |]] w2]; cbn; [auto |].
  destruct (LocalSafe (chainID m) w2) as [[s [e |]] w3]; cbn;
    destruct (Node_Reset u (Derived s) f w3) as [[e' |] w4]; cbn; auto.
Qed.

Lemma onResetEvent_fires (errStr : string) (w : World) :
  let t := trace_of (onResetEvent m errStr w) in
  handlers_fired t = [HReset] /\ emitted t = [].
Proof.
  unfold onResetEvent. cbv zeta. rewrite trace_of_bind.
  rewrite handlers_fired_app, emitted_app.
  destruct (Contains errStr _).
  - split; reflexivity.
  - destruct (resetSignal_Future_quiet zeroBlockRef
                (world_of (log LvlWarn "Node sent us a reset error" w)))
      as [Hh He].
    rewrite Hh, He. split; reflexivity.
Qed.

Lemma onExhaustL1Event_fires (completed : DerivedBlockRefPair) (w : World) :
  let t := trace_of (onExhaustL1Event completed w) in
  handlers_fired t = [HExhaustL1] /\ emitted t = [].
Proof.
  unfold onExhaustL1Event. step.
  destruct (L1BlockRefByNumber _ w) as [[b [e |]] w1]; cbn.
  - destruct (chain_is e NotFound); cbn; auto.
  - destruct (Node_ProvideL1 b w1) as [[e' |] w2]; cbn; auto.
Qed.

Lemma onNodeEvent_dispatch (ev : ManagedEvent) (w : World) :
  let t := trace_of (onNodeEvent m (Some ev) w) in
  handlers_fired t = populated ev /\ emitted t = relayed m ev.
Proof.
  destruct ev as [r ub du ex rb].
  unfold onNodeEvent, populated, relayed. cbn [ev_Reset ev_UnsafeBlock
    ev_DerivationUpdate ev_ExhaustL1 ev_ReplaceBlock]. cbv zeta.
  repeat rewrite trace_of_bind.
  repeat rewrite handlers_fired_app. repeat rewrite emitted_app.
  set (w1 := world_of (when r (onResetEvent m) w)).
  set (w2 := world_of (when ub (onUnsafeBlock m) w1)).
  set (w3 := world_of (when du (onDerivationUpdate m) w2)).
  set (w4 := world_of (when ex onExhaustL1Event w3)).
  assert (H1 : handlers_fired (trace_of (when r (onResetEvent m) w)) = tag r HReset
               /\ emitted (trace_of (when r (onResetEvent m) w)) = []).
  { destruct r as [s |]; [apply onResetEvent_fires | split; reflexivity]. }
  assert (H4 : handlers_fired (trace_of (when ex onExhaustL1Event w3))
               = tag ex HExhaustL1
               /\ emitted (trace_of (when ex onExhaustL1Event w3)) = []).
  { destruct ex as [p |]; [apply onExhaustL1Event_fires | split; reflexivity]. }
  destruct H1 as [H1 E1]. destruct H4 as [H4 E4].
  rewrite H1, E1, H4, E4.
  destruct ub, du, rb; split; reflexivity.
Qed.

(** C7 (amended). For every event that is present, the handlers that run
    are exactly those of its populated variants, each once, in the order
    Reset, UnsafeBlock, DerivationUpdate, ExhaustL1, ReplaceBlock, and the
    bus receives exactly the events those variants relay.  An event with
    no variant populated runs no handler, emits nothing and leaves no log
    line; an absent (nil) event is logged with a warning and dropped.  In
    no case is an error returned. *)
Theorem onNodeEvent_dispatches_populated_variants :
  (forall (ev : ManagedEvent) (w : World),
      handlers_fired (trace_of (onNodeEvent m (Some ev) w)) = populated ev /\
      emitted (trace_of (onNodeEvent m (Some ev) w)) = relayed m ev) /\
  (forall (ev : ManagedEvent) (w : World),
      populated ev = [] -> onNodeEvent m (Some ev) w = (tt, w, [])) /\
  (forall (w : World),
      onNodeEvent m None w = (tt, w, [Log LvlWarn "Received nil event"])).
Proof.
  split; [| split].
  - intros ev w. apply onNodeEvent_dispatch.
  - intros [r ub du ex rb] w Hp. unfold populated in Hp. cbn in Hp.
    destruct r; [discriminate |]. destruct ub; [discriminate |].
    destruct du; [discriminate |]. destruct ex; [discriminate |].
    destruct rb; [discriminate |]. reflexivity.
  - intros w. reflexivity.
Qed.

(** ** The pull loop *)

Lemma PullEvents_loop_complete :
  forall w evs e w' t,
    Pulls m w evs e w' t ->
    forall fuel acc,
      (List.length evs < fuel)%nat ->
      PullEvents_loop m fuel acc w =
        (Some (acc || pulled_any evs, terminal_error e), w', t).
Proof.
  induction 1 as [w ev e w1 Hp | w ev w1 w2 t1 evs e w3 t2 Hp Hd Hrun IH];
    intros fuel acc Hlt; (destruct fuel as [| fuel]; [simpl in Hlt; lia |]);
    cbn [PullEvents_loop]; step; rewrite Hp; cbn.
  - unfold terminal_error. cbn. rewrite orb_false_r.
    destruct (chain_is e EOF); reflexivity.
  - rewrite Hd. cbn.
    rewrite (IH fuel true) by (simpl in Hlt; lia).
    cbn. rewrite orb_true_r. reflexivity.
Qed.

Lemma PullEvents_loop_sound :
  forall fuel acc w r w' t,
    PullEvents_loop m fuel acc w = (Some r, w', t) ->
    exists evs e,
      Pulls m w evs e w' t /\ r = (acc || pulled_any evs, terminal_error e).
Proof.
  induction fuel as [| fuel IH]; intros acc w r w' t Hrun.
  - discriminate Hrun.
  - cbn [PullEvents_loop] in Hrun. revert Hrun. step.
    destruct (Node_PullEvent w) as [[ev [e |]] w1] eqn:Hp; cbn.
    + intros Hrun. exists [], e. unfold terminal_error. cbn.
      rewrite orb_false_r.
      destruct (chain_is e EOF); inversion Hrun; subst;
        (split; [eapply Pulls_stop; exact Hp | reflexivity]).
    + destruct (onNodeEvent m ev w1) as [[[] w2] t1] eqn:Hd. cbn.
      destruct (PullEvents_loop m fuel true w2) as [[r' w3] t2] eqn:Hl.
      intros Hrun. inversion Hrun; subst.
      destruct (IH true w2 r w' t2 Hl) as (evs & e & Hpulls & Hr).
      exists (ev :: evs), e. split.
      * eapply Pulls_next; eassumption.
      * rewrite Hr. cbn. rewrite orb_true_r. reflexivity.
Qed.

(** C8. [PullEvents] pulls one event, dispatches it, and pulls again, until
    the source fails.  If the source yields the events [evs] and then
    fails with [e], any run with more than [length evs] iterations
    returns: (pulledAny, nil) when [e] is end-of-stream and (pulledAny, e)
    otherwise (a cancelled context is such an [e]), and pulledAny is true
    exactly when [evs] is not empty.  Conversely every returning run is of
    that shape. *)
Theorem PullEvents_until_source_fails :
  forall (w w' : World) (t : Trace),
    (forall evs e,
        Pulls m w evs e w' t ->
        forall fuel, (List.length evs < fuel)%nat ->
          PullEvents m fuel w = (Some (pulled_any evs, terminal_error e), w', t)) /\
    (forall fuel pulledAny e',
        PullEvents m fuel w = (Some (pulledAny, e'), w', t) ->
        exists evs e,
          Pulls m w evs e w' t /\
          pulledAny = pulled_any evs /\ e' = terminal_error e).
Proof.
  intros w w' t. split.
  - intros evs e Hrun fuel Hlt. unfold PullEvents.
    apply (PullEvents_loop_complete _ _ _ _ _ Hrun fuel false Hlt).
  - intros fuel pulledAny e' Hrun. unfold PullEvents in Hrun.
    destruct (PullEvents_loop_sound _ _ _ _ _ _ Hrun) as (evs & e & Hp & Hr).
    exists evs, e. inversion Hr; subst. auto.
Qed.

(** ** The conflict resolver: walking back *)

Lemma value_of_pair {A} (a : A) (w : World) (t : Trace) : value_of (a, w, t) = a.
Proof. reflexivity. Qed.

Lemma trace_of_pair {A} (a : A) (w : World) (t : Trace) : trace_of (a, w, t) = t.
Proof. reflexivity. Qed.

Lemma countdown_length (n : nat) (hi : Z) : List.length (countdown n hi) = n.
Proof. revert hi. induction n as [| n IH]; intros hi; simpl; [| rewrite IH]; reflexivity. Qed.

Lemma countdown_bounds (n : nat) (hi : Z) :
  Forall (fun k => hi - Z.of_nat n < k <= hi) (countdown n hi).
Proof.
  revert hi. induction n as [| n IH]; intros hi; simpl countdown; constructor.
  - lia.
  - eapply Forall_impl; [| apply IH]. cbv beta. intros k Hk. lia.
Qed.

Lemma reset_candidates_app (t1 t2 : Trace) :
  reset_candidates (t1 ++ t2) = reset_candidates t1 ++ reset_candidates t2.
Proof. unfold reset_candidates, resets. rewrite flat_map_app. apply map_app. Qed.

Lemma oracle_queries_app (t1 t2 : Trace) :
  oracle_queries (t1 ++ t2) = oracle_queries t1 ++ oracle_queries t2.
Proof. apply flat_map_app. Qed.

(** What [tryReset] returns when the node accepts the candidate. *)
Lemma tryReset_accepted (u f safe : BlockID) (w : World) :
  reset_accepts u f safe ->
  tryReset u f safe w =
    ((true, false, None), snd (Node_Reset u safe f w),
     [Log LvlDebug "Attempting reset"; CallReset u safe f]).
Proof.
  intros Ha. specialize (Ha w). unfold tryReset. step.
  destruct (Node_Reset u safe f w) as [e w1]. cbn in Ha. subst e. reflexivity.
Qed.

(** What [tryReset] returns when the node refuses with a walkable code. *)
Lemma tryReset_rejected (u f safe : BlockID) (w : World) :
  reset_rejects_walkable u f safe ->
  exists e,
    walkable e = true /\
    tryReset u f safe w =
      ((false, true, e), snd (Node_Reset u safe f w),
       [Log LvlDebug "Attempting reset"; CallReset u safe f]).
Proof.
  intros Hr. specialize (Hr w). unfold tryReset. step.
  destruct (Node_Reset u safe f w) as [[e |] w1]; cbn in Hr.
  - exists (Some e). split; [exact Hr |]. cbn.
    rewrite Hr. reflexivity.
  - discriminate Hr.
Qed.

(** One iteration of the walk-back whose candidate is above finalized,
    found by the oracle and refused with a walkable code: the loop goes on
    from that candidate. *)
Lemma walkBack_step_rejected (attempts : nat) (u f : BlockID) (cur : Z) (w : World) :
  0 <= cur - 1 < uint64_modulus ->
  id_Number f < cur - 1 ->
  oracle_yields m (mkBlockID 0 (cur - 1)) (cur - 1) ->
  (forall safe, id_Number safe = cur - 1 -> reset_rejects_walkable u f safe) ->
  exists w1,
    value_of (walkBack m (S attempts) u f cur w) =
      value_of (walkBack m attempts u f (cur - 1) w1) /\
    reset_candidates (trace_of (walkBack m (S attempts) u f cur w)) =
      (cur - 1) :: reset_candidates (trace_of (walkBack m attempts u f (cur - 1) w1)).
Proof.
  intros Hrange Hfin Hq Hrej.
  cbn [walkBack]. rewrite (uint64_small _ Hrange).
  destruct (Z.leb_spec (cur - 1) (id_Number f)) as [Hle | _]; [lia |].
  destruct (Hq w) as [Hnone Hnum]. step.
  destruct (SafeDerivedAt (chainID m) (mkBlockID 0 (cur - 1)) w) as [[b e] w1].
  cbn in Hnone, Hnum. subst e.
  destruct (tryReset_rejected u f b w1 (Hrej b Hnum)) as (e & Hw & Ht).
  rewrite Ht. cbn beta iota zeta. rewrite Hw. cbn [negb].
  exists (snd (Node_Reset u b f w1)).
  destruct (walkBack m attempts u f (cur - 1) (snd (Node_Reset u b f w1)))
    as [[v w2] t2].
  rewrite !value_of_pair, !trace_of_pair. split; [reflexivity |].
  cbn. rewrite Hnum. reflexivity.
Qed.

(** One iteration of the walk-back whose candidate is accepted. *)
Lemma walkBack_step_accepted (attempts : nat) (u f : BlockID) (cur : Z) (w : World) :
  0 <= cur - 1 < uint64_modulus ->
  id_Number f < cur - 1 ->
  oracle_yields m (mkBlockID 0 (cur - 1)) (cur - 1) ->
  (forall safe, id_Number safe = cur - 1 -> reset_accepts u f safe) ->
  value_of (walkBack m (S attempts) u f cur w) = None /\
  reset_candidates (trace_of (walkBack m (S attempts) u f cur w)) = [cur - 1].
Proof.
  intros Hrange Hfin Hq Hacc.
  cbn [walkBack]. rewrite (uint64_small _ Hrange).
  destruct (Z.leb_spec (cur - 1) (id_Number f)) as [Hle | _]; [lia |].
  destruct (Hq w) as [Hnone Hnum]. step.
  destruct (SafeDerivedAt (chainID m) (mkBlockID 0 (cur - 1)) w) as [[b e] w1].
  cbn in Hnone, Hnum. subst e.
  rewrite (tryReset_accepted u f b w1 (Hacc b Hnum)). cbn beta iota zeta.
  rewrite !value_of_pair, !trace_of_pair. split; [reflexivity |].
  cbn. rewrite Hnum. reflexivity.
Qed.

(** The loop reaches an accepted candidate [C] within its attempts. *)
Lemma walkBack_finds (u f : BlockID) (S C : Z) :
  0 <= id_Number f -> id_Number f < C -> S < uint64_modulus ->
  (forall n, id_Number f < n < S -> oracle_yields m (mkBlockID 0 n) n) ->
  (forall safe, id_Number safe = C -> reset_accepts u f safe) ->
  (forall safe, C < id_Number safe <= S -> reset_rejects_walkable u f safe) ->
  forall attempts cur w,
    C < cur -> cur <= S -> cur - C <= Z.of_nat attempts ->
    value_of (walkBack m attempts u f cur w) = None /\
    reset_candidates (trace_of (walkBack m attempts u f cur w)) =
      countdown (Z.to_nat (cur - C)) (cur - 1).
Proof.
  intros HF HFC HS Hq Hacc Hrej.
  induction attempts as [| attempts IH]; intros cur w HC Hcur Hfuel; [lia |].
  destruct (Z.eq_dec (cur - 1) C) as [Heq | Hne].
  - destruct (walkBack_step_accepted attempts u f cur w) as [Hv Ht];
      try lia.
    + apply Hq. lia.
    + intros safe Hs. apply Hacc. lia.
    + split; [exact Hv |]. rewrite Ht.
      replace (cur - C) with 1 by lia. reflexivity.
  - destruct (walkBack_step_rejected attempts u f cur w) as (w1 & Hv & Ht);
      try lia.
    + apply Hq. lia.
    + intros safe Hs. apply Hrej. lia.
    + destruct (IH (cur - 1) w1) as [Hv' Ht']; try lia.
      split; [congruence |]. rewrite Ht, Ht'.
      replace (Z.to_nat (cur - C)) with (Datatypes.S (Z.to_nat (cur - 1 - C))) by lia.
      reflexivity.
Qed.

(** With every candidate refused, the loop ends at the finalized boundary
    if it gets there within its attempts, and on the attempt bound
    otherwise. *)
Lemma walkBack_exhausts (u f : BlockID) (S : Z) :
  0 <= id_Number f -> S < uint64_modulus ->
  (forall n, id_Number f < n < S -> oracle_yields m (mkBlockID 0 n) n) ->
  (forall safe, id_Number f < id_Number safe <= S -> reset_rejects_walkable u f safe) ->
  forall attempts cur w,
    id_Number f < cur -> cur <= S ->
    (cur - id_Number f <= Z.of_nat attempts ->
     value_of (walkBack m attempts u f cur w) =
       Some (Errorf "reached finalized block %d without finding common ancestor"
                    [ArgNum (id_Number f)] None) /\
     reset_candidates (trace_of (walkBack m attempts u f cur w)) =
       countdown (Z.to_nat (cur - id_Number f - 1)) (cur - 1)) /\
    (Z.of_nat attempts < cur - id_Number f ->
     value_of (walkBack m attempts u f cur w) =
       Some (Errorf "exceeded maximum walk-back attempts (%d)"
                    [ArgNum maxWalkBackAttempts] None) /\
     reset_candidates (trace_of (walkBack m attempts u f cur w)) =
       countdown attempts (cur - 1)).
Proof.
  intros HF HS Hq Hrej.
  induction attempts as [| attempts IH]; intros cur w Hlo Hhi.
  - split; [lia |]. intros _. split; reflexivity.
  - destruct (Z.eq_dec (cur - 1) (id_Number f)) as [Heq | Hne].
    + split; [| lia]. intros _.
      cbn [walkBack]. rewrite uint64_small by lia.
      destruct (Z.leb_spec (cur - 1) (id_Number f)) as [_ | Hgt]; [| lia].
      replace (cur - id_Number f - 1) with 0 by lia.
      split; reflexivity.
    + destruct (walkBack_step_rejected attempts u f cur w) as (w1 & Hv & Ht);
        try lia.
      * apply Hq. lia.
      * intros safe Hs. apply Hrej. lia.
      * destruct (IH (cur - 1) w1) as [Hfin Hexc]; try lia.
        rewrite Hv, Ht. split.
        -- intros Hfuel. destruct Hfin as [Hv' Ht']; [lia |].
           split; [exact Hv' |]. rewrite Ht'.
           replace (Z.to_nat (cur - id_Number f - 1))
             with (Datatypes.S (Z.to_nat (cur - 1 - id_Number f - 1))) by lia.
           reflexivity.
        -- intros Hfuel. destruct Hexc as [Hv' Ht']; [lia |].
           split; [exact Hv' |]. rewrite Ht'. reflexivity.
Qed.

(** The first attempt of [resolveConflict], refused with a walkable code,
    hands over to the loop with all its attempts and the candidate's
    number. *)
Lemma resolveConflict_enters_walk (l1Ref : BlockRef) (u f : BlockID) (S : Z) (w : World) :
  oracle_yields m (ID l1Ref) S ->
  (forall safe, id_Number safe = S -> reset_rejects_walkable u f safe) ->
  exists s w1,
    id_Number s = S /\
    value_of (resolveConflict m l1Ref u f w) =
      value_of (walkBack m (Z.to_nat maxWalkBackAttempts) u f S w1) /\
    trace_of (resolveConflict m l1Ref u f w) =
      [CallSafeDerivedAt (chainID m) (ID l1Ref);
       Log LvlDebug "Attempting reset";
       CallReset u s f] ++
      trace_of (walkBack m (Z.to_nat maxWalkBackAttempts) u f S w1).
Proof.
  intros Hq Hrej. destruct (Hq w) as [Hnone Hnum].
  unfold resolveConflict. step.
  destruct (SafeDerivedAt (chainID m) (ID l1Ref) w) as [[s e] w0].
  cbn in Hnone, Hnum. subst e.
  destruct (tryReset_rejected u f s w0 (Hrej s Hnum)) as (e & Hw & Ht).
  rewrite Ht. cbn beta iota zeta. cbn [negb]. rewrite Hnum.
  exists s, (snd (Node_Reset u s f w0)).
  destruct (walkBack m (Z.to_nat maxWalkBackAttempts) u f S
              (snd (Node_Reset u s f w0))) as [[v w2] t2].
  rewrite !value_of_pair, !trace_of_pair. auto.
Qed.

(** C1 (amended). Finalized is F, the oracle's first candidate is S > F,
    the oracle answers every walk-back read at a number n with F < n < S
    with the block numbered n, and the node accepts the reset at C
    (F < C <= S) and refuses it with a walkable code at every number in
    (C, S].  If C is within the walk-back bound of S (S - C <= 300),
    [resolveConflict] returns success, its reset attempts are exactly
    those at S, S-1, ..., C, that is S - C + 1 of them, and none has a
    number at or below F. *)
Theorem resolveConflict_finds_common_ancestor :
  forall (l1Ref : BlockRef) (u f : BlockID) (S C : Z) (w : World),
    WalkBackScenario m l1Ref u f S C ->
    S - C <= maxWalkBackAttempts ->
    let r := resolveConflict m l1Ref u f w in
    value_of r = None /\
    reset_candidates (trace_of r) = countdown (Z.to_nat (S - C + 1)) S /\
    List.length (resets (trace_of r)) = Z.to_nat (S - C + 1) /\
    Forall (fun n => id_Number f < n) (reset_candidates (trace_of r)).
Proof.
  intros l1Ref u f S C w (HF & HFC & HCS & HS & [Hq0 Hq] & Hacc & Hrej) Hbound r.
  assert (Hmain : value_of r = None /\
                  reset_candidates (trace_of r) = countdown (Z.to_nat (S - C + 1)) S).
  { destruct (Z.eq_dec S C) as [Heq | Hne].
    - (* the first attempt is accepted *)
      subst r. destruct (Hq0 w) as [Hnone Hnum].
      unfold resolveConflict. step.
      destruct (SafeDerivedAt (chainID m) (ID l1Ref) w) as [[s e] w0].
      cbn in Hnone, Hnum. subst e.
      assert (Hs : reset_accepts u f s) by (apply Hacc; lia).
      rewrite (tryReset_accepted u f s w0 Hs). cbn beta iota zeta.
      rewrite value_of_pair, trace_of_pair. split; [reflexivity |].
      replace (S - C + 1) with 1 by lia. cbn. rewrite Hnum. reflexivity.
    - destruct (resolveConflict_enters_walk l1Ref u f S w Hq0)
        as (s & w1 & Hnum & Hv & Ht).
      + intros safe Hs. apply Hrej. lia.
      + destruct (walkBack_finds u f S C HF HFC HS Hq Hacc Hrej
                    (Z.to_nat maxWalkBackAttempts) S w1) as [Hv' Ht'];
          try (unfold maxWalkBackAttempts in *; lia).
        subst r. split; [congruence |].
        rewrite Ht, reset_candidates_app, Ht'. cbn. rewrite Hnum.
        replace (Z.to_nat (S - C + 1)) with (Datatypes.S (Z.to_nat (S - C))) by lia.
        reflexivity. }
  destruct Hmain as [Hv Hc]. split; [exact Hv |]. split; [exact Hc |]. split.
  - transitivity (List.length (reset_candidates (trace_of r))).
    + unfold reset_candidates. now rewrite length_map.
    + rewrite Hc. apply countdown_length.
  - rewrite Hc. eapply Forall_impl; [| apply countdown_bounds].
    cbv beta. intros k Hk. lia.
Qed.

(** C2. Finalized is F, the first candidate is S > F, and the node refuses
    every candidate in (F, S] with a walkable code.  If the walk reaches F
    within the 300 attempts (S - F <= 300), [resolveConflict] returns the
    "reached finalized block" error, after attempts at S, ..., F+1;
    otherwise it returns the "exceeded maximum walk-back attempts (300)"
    error, after the first attempt and 300 more.  The two errors differ. *)
Theorem resolveConflict_exhaustion_errors :
  forall (l1Ref : BlockRef) (u f : BlockID) (S : Z) (w : World),
    ExhaustionScenario m l1Ref u f S ->
    let r := resolveConflict m l1Ref u f w in
    let reached :=
      Errorf "reached finalized block %d without finding common ancestor"
             [ArgNum (id_Number f)] None in
    let exceeded :=
      Errorf "exceeded maximum walk-back attempts (%d)" [ArgNum 300] None in
    (S - id_Number f <= maxWalkBackAttempts ->
     value_of r = Some reached /\
     reset_candidates (trace_of r) = countdown (Z.to_nat (S - id_Number f)) S) /\
    (maxWalkBackAttempts < S - id_Number f ->
     value_of r = Some exceeded /\
     reset_candidates (trace_of r) = countdown 301 S) /\
    reached <> exceeded.
Proof.
  intros l1Ref u f S w (HF & HFS & HS & [Hq0 Hq] & Hrej) r reached exceeded.
  destruct (resolveConflict_enters_walk l1Ref u f S w Hq0)
    as (s & w1 & Hnum & Hv & Ht).
  { intros safe Hs. apply Hrej. lia. }
  destruct (walkBack_exhausts u f S HF HS Hq Hrej
              (Z.to_nat maxWalkBackAttempts) S w1 HFS (Z.le_refl S))
    as [Hfin Hexc].
  fold r in Hv, Ht. split; [| split].
  - intros Hle. destruct Hfin as [Hv' Ht'];
      [unfold maxWalkBackAttempts in *; lia |].
    split; [rewrite Hv, Hv'; reflexivity |].
    rewrite Ht, reset_candidates_app, Ht'. cbn. rewrite Hnum.
    replace (Z.to_nat (S - id_Number f))
      with (Datatypes.S (Z.to_nat (S - id_Number f - 1))) by lia.
    reflexivity.
  - intros Hgt. destruct Hexc as [Hv' Ht'];
      [unfold maxWalkBackAttempts in *; lia |].
    split; [rewrite Hv, Hv'; reflexivity |].
    rewrite Ht, reset_candidates_app, Ht'. cbn [reset_candidates resets flat_map
      reset_of app map fst snd]. rewrite Hnum. reflexivity.
  - unfold reached, exceeded. discriminate.
Qed.

(** ** The conflict resolver: the candidate counter is a uint64 *)





End Proofs.

(** * Further properties of the engine *)

Section Invariants.

Context {World : Type} {B : backend World} {N : SyncControl World}.
Variable m : ManagedNode.

(** ** What the conflict resolver does against any collaborators *)

(** [tryReset] reports "resolved" exactly when the node accepted, and
    "needs walk-back" exactly on a walkable code; its trace is the debug
    line and the reset. *)
Lemma tryReset_run (u f safe : BlockID) (w : World) :
  tryReset u f safe w =
    (match fst (Node_Reset u safe f w) with
     | None => (true, false, None)
     | Some e => (false, walkable (Some e), Some e)
     end,
     snd (Node_Reset u safe f w),
     [Log LvlDebug "Attempting reset"; CallReset u safe f]).
Proof.
  unfold tryReset. step.
  destruct (Node_Reset u safe f w) as [[e |] w1]; cbn beta iota zeta; cbn [fst snd];
    [destruct (walkable (Some e)) |]; reflexivity.
Qed.

Lemma resets_cons (e : Effect) (t : Trace) : resets (e :: t) = reset_of e ++ resets t.
Proof. reflexivity. Qed.

Lemma oracle_queries_cons (e : Effect) (t : Trace) :
  oracle_queries (e :: t) = oracle_query_of e ++ oracle_queries t.
Proof. reflexivity. Qed.

(** What a run of the loop can have done, whatever the collaborators
    answer: no more resets than oracle reads, no more oracle reads than
    attempts, every reset with the same heads, and success only after a
    reset the node accepted. *)
Lemma walkBack_invariants (u f : BlockID) :
  forall attempts cur w v w' t,
    walkBack m attempts u f cur w = (v, w', t) ->
    (List.length (resets t) <= List.length (oracle_queries t))%nat /\
    (List.length (oracle_queries t) <= attempts)%nat /\
    Forall (fun x => fst (fst x) = u /\ snd x = f) (resets t) /\
    (v = None ->
     exists pre safe w0,
       resets t = pre ++ [(u, safe, f)] /\ fst (Node_Reset u safe f w0) = None).
Proof.
  induction attempts as [| attempts IH]; intros cur w v w' t Hrun.
  - inversion Hrun; subst. norm_trace.
    split; [lia |]. split; [lia |]. split; [constructor | discriminate].
  - cbn [walkBack] in Hrun.
    destruct (uint64 (cur - 1) <=? id_Number f).
    { inversion Hrun; subst. norm_trace.
      split; [lia |]. split; [lia |]. split; [constructor | discriminate]. }
    unfold bind at 1 in Hrun. unfold call at 1 in Hrun.
    destruct (SafeDerivedAt (chainID m) (mkBlockID 0 (uint64 (cur - 1))) w)
      as [[b [e |]] w1]; cbn beta iota zeta in Hrun.
    { inversion Hrun; subst. norm_trace.
      split; [lia |]. split; [lia |]. split; [constructor | discriminate]. }
    unfold bind at 1 in Hrun. rewrite tryReset_run in Hrun.
    destruct (Node_Reset u b f w1) as [[e' |] w2] eqn:Hreset;
      cbn beta iota zeta in Hrun; cbn [fst snd] in Hrun.
    + destruct (walkable (Some e')); cbn [negb] in Hrun.
      * destruct (walkBack m attempts u f (uint64 (cur - 1)) w2)
          as [[v3 w3] t3] eqn:Hrec.
        inversion Hrun; subst.
        destruct (IH _ _ _ _ _ Hrec) as (H1 & H2 & H3 & H4).
        norm_trace. split; [lia |]. split; [lia |]. split.
        -- constructor; [split; reflexivity | exact H3].
        -- intros Hv. destruct (H4 Hv) as (pre & safe & w0 & Hpre & Hacc).
           exists ((u, b, f) :: pre), safe, w0.
           rewrite Hpre. auto.
      * inversion Hrun; subst. norm_trace. split; [lia |]. split; [lia |]. split.
        -- constructor; [split; reflexivity | constructor].
        -- discriminate.
    + inversion Hrun; subst. norm_trace. split; [lia |]. split; [lia |]. split.
      * constructor; [split; reflexivity | constructor].
      * intros _. exists [], b, w1. rewrite Hreset. auto.
Qed.

(** The same for the whole resolver, with its first attempt counted. *)
Lemma resolveConflict_invariants (l1Ref : BlockRef) (u f : BlockID) :
  forall w v w' t,
    resolveConflict m l1Ref u f w = (v, w', t) ->
    (List.length (resets t) <= List.length (oracle_queries t))%nat /\
    (List.length (oracle_queries t) <= 301)%nat /\
    Forall (fun x => fst (fst x) = u /\ snd x = f) (resets t) /\
    (v = None ->
     exists pre safe w0,
       resets t = pre ++ [(u, safe, f)] /\ fst (Node_Reset u safe f w0) = None).
Proof.
  intros w v w' t Hrun. unfold resolveConflict in Hrun.
  unfold bind at 1 in Hrun. unfold call at 1 in Hrun.
  destruct (SafeDerivedAt (chainID m) (ID l1Ref) w) as [[s [e |]] w1];
    cbn beta iota zeta in Hrun.
  { inversion Hrun; subst. norm_trace.
    split; [lia |]. split; [lia |]. split; [constructor | discriminate]. }
  unfold bind at 1 in Hrun. rewrite tryReset_run in Hrun.
  destruct (Node_Reset u s f w1) as [[e' |] w2] eqn:Hreset;
    cbn beta iota zeta in Hrun; cbn [fst snd] in Hrun.
  - destruct (walkable (Some e')); cbn [negb] in Hrun.
    + destruct (walkBack m (Z.to_nat maxWalkBackAttempts) u f (id_Number s) w2)
        as [[v3 w3] t3] eqn:Hrec.
      inversion Hrun; subst.
      destruct (walkBack_invariants u f _ _ _ _ _ _ Hrec) as (H1 & H2 & H3 & H4).
      change (Z.to_nat maxWalkBackAttempts) with 300%nat in H2.
      norm_trace. split; [lia |]. split; [lia |]. split.
      * constructor; [split; reflexivity | exact H3].
      * intros Hv. destruct (H4 Hv) as (pre & safe & w0 & Hpre & Hacc).
        exists ((u, s, f) :: pre), safe, w0.
        rewrite Hpre. auto.
    + inversion Hrun; subst. norm_trace. split; [lia |]. split; [lia |]. split.
      * constructor; [split; reflexivity | constructor].
      * discriminate.
  - inversion Hrun; subst. norm_trace. split; [lia |]. split; [lia |]. split.
    + constructor; [split; reflexivity | constructor].
    + intros _. exists [], s, w1. rewrite Hreset. auto.
Qed.

(** A finished run is the triple of its components. *)
Lemma run_eta {A} (r : A * World * Trace) : r = (value_of r, world_of r, trace_of r).
Proof. destruct r as [[a w] t]. reflexivity. Qed.

(** X1. Against any oracle and any node, [resolveConflict] reads the
    oracle at most 301 times (the first read and at most 300 walk-back
    reads) and sends at most as many resets as it made reads. *)
Theorem resolveConflict_effort_is_bounded :
  forall (l1Ref : BlockRef) (u f : BlockID) (w : World),
    let t := trace_of (resolveConflict m l1Ref u f w) in
    (List.length (resets t) <= List.length (oracle_queries t))%nat /\
    (List.length (oracle_queries t) <= 301)%nat.
Proof.
  intros l1Ref u f w t.
  destruct (resolveConflict_invariants l1Ref u f _ _ _ _
              (run_eta (resolveConflict m l1Ref u f w))) as (H1 & H2 & _).
  split; assumption.
Qed.

(** X2. Every reset [resolveConflict] sends carries the local-unsafe and
    finalized blocks it was called with; only the safe candidate varies. *)
Theorem resolveConflict_resets_keep_unsafe_and_finalized :
  forall (l1Ref : BlockRef) (u f : BlockID) (w : World),
    Forall (fun r => fst (fst r) = u /\ snd r = f)
           (resets (trace_of (resolveConflict m l1Ref u f w))).
Proof.
  intros l1Ref u f w.
  destruct (resolveConflict_invariants l1Ref u f _ _ _ _
              (run_eta (resolveConflict m l1Ref u f w))) as (_ & _ & H3 & _).
  exact H3.
Qed.

(** An oracle read against the backend beside a journal is the read
    against the backend. *)
Lemma oracle_read_recorded (q : BlockID) (w : World) (j : Journal) :
  call (CallSafeDerivedAt (chainID m) q)
       (@SafeDerivedAt _ (recording_backend B) (chainID m) q) (w, j) =
    let '(a, w1, t) :=
      call (CallSafeDerivedAt (chainID m) q) (SafeDerivedAt (chainID m) q) w in
    (a, (w1, j), t).
Proof.
  unfold call. cbn [SafeDerivedAt recording_backend].
  unfold keep_journal. cbn [fst snd].
  destruct (SafeDerivedAt (chainID m) q w) as [a w1]. reflexivity.
Qed.

(** [tryReset] against the journaling node is [tryReset] against the
    node, with the call and its answer appended to the journal. *)
Lemma tryReset_recorded (u f safe : BlockID) (w : World) (j : Journal) :
  @tryReset _ (recording_node N) u f safe (w, j) =
    (match fst (Node_Reset u safe f w) with
     | None => (true, false, None)
     | Some e => (false, walkable (Some e), Some e)
     end,
     (snd (Node_Reset u safe f w),
      journal_add j u safe f (fst (Node_Reset u safe f w))),
     [Log LvlDebug "Attempting reset"; CallReset u safe f]).
Proof.
  unfold tryReset. step.
  cbn [Node_Reset recording_node fst snd].
  destruct (Node_Reset u safe f w) as [[e |] w1]; cbn beta iota zeta; cbn [fst snd];
    [destruct (walkable (Some e)) |]; reflexivity.
Qed.

(** The loop against the journaling collaborators does what it does
    against the plain ones, and the journal grows by its resets. *)
Lemma walkBack_recorded (u f : BlockID) :
  forall attempts cur w j v w' t,
    walkBack m attempts u f cur w = (v, w', t) ->
    exists j',
      @walkBack _ (recording_backend B) (recording_node N) m attempts u f cur (w, j) =
        (v, (w', j ++ j'), t) /\
      map fst j' = resets t /\
      journal_shape u f v j'.
Proof.
  induction attempts as [| attempts IH]; intros cur w j v w' t Hrun.
  - inversion Hrun; subst. exists []. rewrite app_nil_r.
    split; [reflexivity |]. split; [reflexivity | constructor].
  - cbn [walkBack] in Hrun |- *.
    destruct (uint64 (cur - 1) <=? id_Number f).
    { inversion Hrun; subst. exists []. rewrite app_nil_r.
      split; [reflexivity |]. split; [reflexivity | constructor]. }
    unfold bind at 1 in Hrun. unfold bind at 1. rewrite oracle_read_recorded.
    unfold call at 1 in Hrun. unfold call at 1.
    destruct (SafeDerivedAt (chainID m) (mkBlockID 0 (uint64 (cur - 1))) w)
      as [[b [e |]] w1]; cbn beta iota zeta in Hrun |- *.
    { inversion Hrun; subst. exists []. rewrite app_nil_r.
      split; [reflexivity |]. split; [reflexivity | constructor]. }
    unfold bind at 1 in Hrun. unfold bind at 1.
    rewrite tryReset_run in Hrun. rewrite tryReset_recorded.
    destruct (Node_Reset u b f w1) as [[e' |] w2];
      cbn beta iota zeta in Hrun |- *; cbn [fst snd] in Hrun |- *.
    + destruct (walkable (Some e')); cbn [negb] in Hrun |- *.
      * destruct (walkBack m attempts u f (uint64 (cur - 1)) w2)
          as [[v3 w3] t3] eqn:Hrec.
        inversion Hrun; subst.
        destruct (IH _ _ (journal_add j u b f (Some e')) _ _ _ Hrec)
          as (j' & Hrec' & Hmap & Hshape).
        exists (((u, b, f), Some e') :: j'). rewrite Hrec'.
        unfold journal_add. rewrite <- app_assoc. split; [reflexivity |]. split.
        -- norm_trace. cbn [map fst]. rewrite Hmap. reflexivity.
        -- unfold journal_shape in *. destruct v as [e0 |].
           ++ constructor; [cbn; discriminate | exact Hshape].
           ++ destruct Hshape as (pre & safe & Hj & Hpre).
              exists (((u, b, f), Some e') :: pre), safe. rewrite Hj.
              split; [reflexivity |].
              constructor; [cbn; discriminate | exact Hpre].
      * inversion Hrun; subst. exists [((u, b, f), Some e')].
        split; [reflexivity |]. split; [reflexivity |].
        constructor; [cbn; discriminate | constructor].
    + inversion Hrun; subst. exists [((u, b, f), None)].
      split; [reflexivity |]. split; [reflexivity |].
      exists [], b. split; [reflexivity | constructor].
Qed.

Lemma resolveConflict_recorded (l1Ref : BlockRef) (u f : BlockID) :
  forall w v w' t,
    resolveConflict m l1Ref u f w = (v, w', t) ->
    exists j,
      @resolveConflict _ (recording_backend B) (recording_node N) m l1Ref u f (w, []) =
        (v, (w', j), t) /\
      map fst j = resets t /\
      journal_shape u f v j.
Proof.
  intros w v w' t Hrun. unfold resolveConflict in Hrun |- *.
  unfold bind at 1 in Hrun. unfold bind at 1. rewrite oracle_read_recorded.
  unfold call at 1 in Hrun. unfold call at 1.
  destruct (SafeDerivedAt (chainID m) (ID l1Ref) w) as [[s [e |]] w1];
    cbn beta iota zeta in Hrun |- *.
  { inversion Hrun; subst. exists [].
    split; [reflexivity |]. split; [reflexivity | constructor]. }
  unfold bind at 1 in Hrun. unfold bind at 1.
  rewrite tryReset_run in Hrun. rewrite tryReset_recorded.
  destruct (Node_Reset u s f w1) as [[e' |] w2];
    cbn beta iota zeta in Hrun |- *; cbn [fst snd app] in Hrun |- *.
  - destruct (walkable (Some e')); cbn [negb] in Hrun |- *.
    + destruct (walkBack m (Z.to_nat maxWalkBackAttempts) u f (id_Number s) w2)
        as [[v3 w3] t3] eqn:Hrec.
      inversion Hrun; subst.
      destruct (walkBack_recorded u f _ _ _ (journal_add [] u s f (Some e')) _ _ _ Hrec)
        as (j' & Hrec' & Hmap & Hshape).
      exists (((u, s, f), Some e') :: j'). rewrite Hrec'.
      split; [reflexivity |]. split.
      * norm_trace. cbn [map fst]. rewrite Hmap. reflexivity.
      * unfold journal_shape in *. destruct v as [e0 |].
        -- constructor; [cbn; discriminate | exact Hshape].
        -- destruct Hshape as (pre & safe & Hj & Hpre).
           exists (((u, s, f), Some e') :: pre), safe. rewrite Hj.
           split; [reflexivity |].
           constructor; [cbn; discriminate | exact Hpre].
    + inversion Hrun; subst. exists [((u, s, f), Some e')].
      split; [reflexivity |]. split; [reflexivity |].
      constructor; [cbn; discriminate | constructor].
  - inversion Hrun; subst. exists [((u, s, f), None)].
    split; [reflexivity |]. split; [reflexivity |].
    exists [], s. split; [reflexivity | constructor].
Qed.

(** X3. [resolveConflict] returns success exactly when the last reset the
    node answered in the run was accepted.  Run against the node that
    journals its answers (and the backend beside it), the resolver
    returns the same result, trace and world as against the plain ones;
    the journal lists the resets of the run in order, each with the
    answer the node gave to that call; on success the last entry is an
    acceptance and every earlier one a refusal, and on an error every
    entry is a refusal. *)
Theorem resolveConflict_success_iff_last_reset_accepted :
  forall (l1Ref : BlockRef) (u f : BlockID) (w : World),
    let r := resolveConflict m l1Ref u f w in
    let r' := @resolveConflict (World * Journal) (recording_backend B)
                               (recording_node N) m l1Ref u f (w, []) in
    let journal := snd (world_of r') in
    value_of r' = value_of r /\
    trace_of r' = trace_of r /\
    fst (world_of r') = world_of r /\
    map fst journal = resets (trace_of r) /\
    match value_of r with
    | None =>
        exists pre safe,
          journal = pre ++ [((u, safe, f), None)] /\
          Forall (fun x => snd x <> None) pre
    | Some _ => Forall (fun x => snd x <> None) journal
    end.
Proof.
  intros l1Ref u f w r r' journal. subst journal r'.
  destruct (resolveConflict_recorded l1Ref u f _ _ _ _ (run_eta r))
    as (j & Hrec & Hmap & Hshape).
  rewrite Hrec. proj_run.
  split; [reflexivity |]. split; [reflexivity |]. split; [reflexivity |].
  split; [exact Hmap | exact Hshape].
Qed.

(** ** The walk-back at its edges *)

(** An iteration whose decremented counter is at or below finalized ends
    the loop at once. *)
Lemma walkBack_at_boundary (attempts : nat) (u f : BlockID) (cur : Z) (w : World) :
  0 <= cur - 1 < uint64_modulus ->
  cur - 1 <= id_Number f ->
  walkBack m (Datatypes.S attempts) u f cur w =
    (Some (Errorf "reached finalized block %d without finding common ancestor"
                  [ArgNum (id_Number f)] None), w, []).
Proof.
  intros Hrange Hle. cbn [walkBack]. rewrite (uint64_small _ Hrange).
  destruct (Z.leb_spec (cur - 1) (id_Number f)) as [_ | Hgt]; [reflexivity | lia].
Qed.

Lemma countdown_snoc (n : nat) (hi : Z) :
  countdown (Datatypes.S n) hi = countdown n hi ++ [hi - Z.of_nat n].
Proof.
  revert hi. induction n as [| n IH]; intros hi.
  - cbn. f_equal. lia.
  - change (countdown (Datatypes.S (Datatypes.S n)) hi)
      with (hi :: countdown (Datatypes.S n) (hi - 1)).
    rewrite IH. cbn [countdown app]. do 3 f_equal. lia.
Qed.

(** X4. The finalized boundary guards the walk-back only, not the first
    attempt: when the oracle's first candidate [S] is at or below
    finalized (or just above it) and is refused with a walkable code,
    [resolveConflict] has sent that one reset, makes no further read or
    reset, and returns the "reached finalized block" error. *)
Theorem resolveConflict_first_candidate_at_finalized :
  forall (l1Ref : BlockRef) (u f : BlockID) (S : Z) (w : World),
    1 <= S -> S <= id_Number f + 1 -> S < uint64_modulus ->
    oracle_yields m (ID l1Ref) S ->
    (forall safe, id_Number safe = S -> reset_rejects_walkable u f safe) ->
    exists s,
      id_Number s = S /\
      trace_of (resolveConflict m l1Ref u f w) =
        [CallSafeDerivedAt (chainID m) (ID l1Ref);
         Log LvlDebug "Attempting reset";
         CallReset u s f] /\
      value_of (resolveConflict m l1Ref u f w) =
        Some (Errorf "reached finalized block %d without finding common ancestor"
                     [ArgNum (id_Number f)] None).
Proof.
  intros l1Ref u f S w H1 HSF HS Hq0 Hrej.
  destruct (resolveConflict_enters_walk m l1Ref u f S w Hq0 Hrej)
    as (s & w1 & Hnum & Hv & Ht).
  exists s. split; [exact Hnum |].
  change (Z.to_nat maxWalkBackAttempts) with (Datatypes.S 299) in Hv, Ht.
  rewrite walkBack_at_boundary in Hv, Ht by lia.
  split; [rewrite Ht | rewrite Hv]; reflexivity.
Qed.

(** The loop walks down through refused candidates to the number [k + 1];
    what it does at [k] is what one iteration from [k + 1] does. *)
Lemma walkBack_descends (u f : BlockID) (S k : Z) (stop : error) (tail : list Z) :
  0 <= id_Number f -> id_Number f < k -> S < uint64_modulus ->
  (forall n, k < n < S -> oracle_yields m (mkBlockID 0 n) n) ->
  (forall safe, k < id_Number safe <= S -> reset_rejects_walkable u f safe) ->
  (forall attempts w,
      value_of (walkBack m (Datatypes.S attempts) u f (k + 1) w) = stop /\
      reset_candidates (trace_of (walkBack m (Datatypes.S attempts) u f (k + 1) w)) = tail) ->
  forall attempts cur w,
    k < cur -> cur <= S -> cur - k <= Z.of_nat attempts ->
    value_of (walkBack m attempts u f cur w) = stop /\
    reset_candidates (trace_of (walkBack m attempts u f cur w)) =
      countdown (Z.to_nat (cur - k - 1)) (cur - 1) ++ tail.
Proof.
  intros HF HFk HS Hq Hrej Hlast.
  induction attempts as [| attempts IH]; intros cur w Hk Hcur Hfuel; [lia |].
  destruct (Z.eq_dec cur (k + 1)) as [Heq | Hne].
  - subst cur. replace (k + 1 - k - 1) with 0 by lia. apply Hlast.
  - destruct (walkBack_step_rejected m attempts u f cur w) as (w1 & Hv & Ht);
      try lia.
    + apply Hq. lia.
    + intros safe Hs. apply Hrej. lia.
    + destruct (IH (cur - 1) w1) as [Hv' Ht']; try lia.
      split; [congruence |]. rewrite Ht, Ht'.
      replace (Z.to_nat (cur - k - 1))
        with (Datatypes.S (Z.to_nat (cur - 1 - k - 1))) by lia.
      reflexivity.
Qed.

(** X5. A failed oracle read during the walk ends it: with the candidates
    in (k, S] refused with a walkable code and the oracle failing with [e]
    at number [k] (F < k < S, within the 300 attempts), [resolveConflict]
    returns "failed to retrieve safe block k" wrapping [e], after resets
    at S, ..., k+1 and none at [k]. *)
Theorem resolveConflict_stops_on_oracle_failure :
  forall (l1Ref : BlockRef) (u f : BlockID) (S k : Z) (e : err) (w : World),
    0 <= id_Number f -> id_Number f < k -> k < S -> S < uint64_modulus ->
    S - k <= maxWalkBackAttempts ->
    oracle_yields m (ID l1Ref) S ->
    (forall n, k < n < S -> oracle_yields m (mkBlockID 0 n) n) ->
    (forall w0, snd (fst (SafeDerivedAt (chainID m) (mkBlockID 0 k) w0)) = Some e) ->
    (forall safe, k < id_Number safe <= S -> reset_rejects_walkable u f safe) ->
    value_of (resolveConflict m l1Ref u f w) =
      Some (Errorf "failed to retrieve safe block %d: %w" [ArgNum k] (Some e)) /\
    reset_candidates (trace_of (resolveConflict m l1Ref u f w)) =
      countdown (Z.to_nat (S - k)) S.
Proof.
  intros l1Ref u f S k e w HF HFk HkS HS Hbound Hq0 Hq Hfail Hrej.
  destruct (resolveConflict_enters_walk m l1Ref u f S w Hq0)
    as (s & w1 & Hnum & Hv & Ht).
  { intros safe Hs. apply Hrej. lia. }
  destruct (walkBack_descends u f S k
              (Some (Errorf "failed to retrieve safe block %d: %w" [ArgNum k] (Some e)))
              [] HF HFk HS Hq Hrej) with (attempts := Z.to_nat maxWalkBackAttempts)
              (cur := S) (w := w1) as [Hv' Ht'];
    try (unfold maxWalkBackAttempts in *; lia).
  { intros attempts w0. cbn [walkBack].
    replace (k + 1 - 1) with k by lia. rewrite uint64_small by lia.
    destruct (Z.leb_spec k (id_Number f)) as [Hle | _]; [lia |].
    specialize (Hfail w0). step.
    destruct (SafeDerivedAt (chainID m) (mkBlockID 0 k) w0) as [[b e0] w2].
    cbn in Hfail. subst e0. split; reflexivity. }
  split; [congruence |].
  rewrite Ht, reset_candidates_app, Ht', app_nil_r. cbn. rewrite Hnum.
  replace (Z.to_nat (S - k)) with (Datatypes.S (Z.to_nat (S - k - 1))) by lia.
  reflexivity.
Qed.

(** X6. A reset error that is not walkable ends the walk: with the
    candidates in (k, S] refused with a walkable code and the candidate
    [k] refused with an error [e] of another kind (F < k < S, within the
    300 attempts), [resolveConflict] returns "error during reset at block
    k" wrapping [e], after resets at S, ..., k. *)
Theorem resolveConflict_stops_on_reset_failure :
  forall (l1Ref : BlockRef) (u f : BlockID) (S k : Z) (e : err) (w : World),
    0 <= id_Number f -> id_Number f < k -> k < S -> S < uint64_modulus ->
    S - k <= maxWalkBackAttempts ->
    oracle_yields m (ID l1Ref) S ->
    (forall n, k <= n < S -> oracle_yields m (mkBlockID 0 n) n) ->
    (forall safe w0, id_Number safe = k -> fst (Node_Reset u safe f w0) = Some e) ->
    walkable (Some e) = false ->
    (forall safe, k < id_Number safe <= S -> reset_rejects_walkable u f safe) ->
    value_of (resolveConflict m l1Ref u f w) =
      Some (Errorf "error during reset at block %d: %w" [ArgNum k] (Some e)) /\
    reset_candidates (trace_of (resolveConflict m l1Ref u f w)) =
      countdown (Z.to_nat (S - k + 1)) S.
Proof.
  intros l1Ref u f S k e w HF HFk HkS HS Hbound Hq0 Hq Hfail Hnw Hrej.
  destruct (resolveConflict_enters_walk m l1Ref u f S w Hq0)
    as (s & w1 & Hnum & Hv & Ht).
  { intros safe Hs. apply Hrej. lia. }
  destruct (walkBack_descends u f S k
              (Some (Errorf "error during reset at block %d: %w" [ArgNum k] (Some e)))
              [k] HF HFk HS) with (attempts := Z.to_nat maxWalkBackAttempts)
              (cur := S) (w := w1) as [Hv' Ht'];
    try (unfold maxWalkBackAttempts in *; lia).
  { intros n Hn. apply Hq. lia. }
  { exact Hrej. }
  { intros attempts w0. cbn [walkBack].
    replace (k + 1 - 1) with k by lia. rewrite uint64_small by lia.
    destruct (Z.leb_spec k (id_Number f)) as [Hle | _]; [lia |].
    destruct (Hq k ltac:(lia) w0) as [Hnone Hk]. step.
    destruct (SafeDerivedAt (chainID m) (mkBlockID 0 k) w0) as [[b e0] w2].
    cbn in Hnone, Hk. subst e0. rewrite tryReset_run.
    rewrite (Hfail b w2 Hk). cbn beta iota zeta. rewrite Hnw. cbn [negb].
    split; [reflexivity |]. cbn. rewrite Hk. reflexivity. }
  split; [congruence |].
  rewrite Ht, reset_candidates_app, Ht'. cbn. rewrite Hnum.
  replace (Z.to_nat (S - k + 1))
    with (Datatypes.S (Datatypes.S (Z.to_nat (S - k - 1)))) by lia.
  change (countdown (Datatypes.S (Datatypes.S (Z.to_nat (S - k - 1)))) S)
    with (S :: countdown (Datatypes.S (Z.to_nat (S - k - 1))) (S - 1)).
  rewrite countdown_snoc. do 3 f_equal. lia.
Qed.

(** ** Resets outside the resolver *)

(** X7. Against any backend and any node, [sendReset] sends at most one
    reset, never reads the oracle's [SafeDerivedAt], feeds no L1 block and
    emits nothing. *)
Theorem sendReset_sends_at_most_one_reset :
  forall (w : World),
    let t := trace_of (sendReset m w) in
    (List.length (resets t) <= 1)%nat /\
    oracle_queries t = [] /\ provided t = [] /\ emitted t = [].
Proof.
  intros w. cbv zeta. unfold sendReset. step.
  destruct (LocalUnsafe (chainID m) w) as [[u [e |]] w1]; cbn;
    [repeat split; lia |].
  destruct (CrossSafe (chainID m) w1) as [[s [e |]] w2]; cbn;
    [repeat split; lia |].
  destruct (Finalized (chainID m) w2) as [[f [e |]] w3]; cbn.
  - destruct (chain_is e ErrFuture); cbn; [| repeat split; lia].
    destruct (Node_Reset u (Derived s) (mkBlockID 0 0) w3) as [[e' |] w4]; cbn;
      repeat split; lia.
  - destruct (Node_Reset u (Derived s) f w3) as [[e' |] w4]; cbn;
      repeat split; lia.
Qed.

(** X8. Against any collaborators, [resetSignal] sends at most 301 resets;
    when the signal is not a conflict it sends at most one and never
    reads [SafeDerivedAt]. *)
Theorem resetSignal_reset_budget :
  forall (errSignal : error) (l1Ref : BlockRef) (w : World),
    let t := trace_of (resetSignal m errSignal l1Ref w) in
    (List.length (resets t) <= 301)%nat /\
    (errors_Is errSignal ErrConflict = false ->
     (List.length (resets t) <= 1)%nat /\ oracle_queries t = []).
Proof.
  intros errSignal l1Ref w. cbv zeta. unfold resetSignal. step.
  destruct (LocalUnsafe (chainID m) w) as [[u [e |]] w1]; cbn;
    [split; [lia | intros _; split; [lia | reflexivity]] |].
  destruct (Finalized (chainID m) w1) as [[f [e |]] w2]; cbn;
    [split; [lia | intros _; split; [lia | reflexivity]] |].
  destruct (errors_Is errSignal ErrConflict).
  - split; [| discriminate].
    destruct (resolveConflict m l1Ref u f w2) as [[v w3] t3] eqn:Hrun.
    destruct (resolveConflict_invariants l1Ref u f _ _ _ _ Hrun) as (H1 & H2 & _).
    cbn beta iota zeta.
    assert (Hlen : (List.length (resets t3) <= 301)%nat) by lia.
    destruct v as [e |]; cbn; unfold resets in *; rewrite flat_map_app;
      rewrite length_app; cbn; lia.
  - destruct (errors_Is errSignal ErrFuture).
    + destruct (LocalSafe (chainID m) w2) as [[s [e |]] w3]; cbn;
        destruct (Node_Reset u (Derived s) f w3) as [[e' |] w4]; cbn;
        (split; [lia | intros _; split; [lia | reflexivity]]).
    + destruct (errors_Is errSignal ErrOutOfOrder); cbn;
        [| split; [lia | intros _; split; [lia | reflexivity]]].
      destruct (LocalSafe (chainID m) w2) as [[s [e |]] w3]; cbn;
        [split; [lia | intros _; split; [lia | reflexivity]] |].
      destruct (Node_Reset u (Derived s) f w3) as [[e' |] w4]; cbn;
        (split; [lia | intros _; split; [lia | reflexivity]]).
Qed.

(** X9. With local-unsafe, finalized and local-safe all read, a Future
    signal and an OutOfOrder signal send the same single reset,
    (local-unsafe, local-safe.Derived, finalized), whether or not the node
    accepts it. *)
Theorem resetSignal_resets_to_local_safe :
  forall (errSignal : error) (l1Ref : BlockRef) (w w1 w2 w3 : World)
         (u f : BlockID) (s : DerivedIDPair),
    LocalUnsafe (chainID m) w = ((u, None), w1) ->
    Finalized (chainID m) w1 = ((f, None), w2) ->
    LocalSafe (chainID m) w2 = ((s, None), w3) ->
    errors_Is errSignal ErrFuture = true \/ errors_Is errSignal ErrOutOfOrder = true ->
    resets (trace_of (resetSignal m errSignal l1Ref w)) = [(u, Derived s, f)] /\
    world_of (resetSignal m errSignal l1Ref w) = snd (Node_Reset u (Derived s) f w3).
Proof.
  intros errSignal l1Ref w w1 w2 w3 u f s Hu Hf Hs Hkind.
  unfold resetSignal. step. rewrite Hu. cbn. rewrite Hf. cbn.
  destruct Hkind as [Hk | Hk].
  - rewrite (errors_Is_exclusive _ _ ErrConflict Hk) by discriminate.
    rewrite Hk, Hs. cbn.
    destruct (Node_Reset u (Derived s) f w3) as [[e' |] w4]; split; reflexivity.
  - rewrite (errors_Is_exclusive _ _ ErrConflict Hk) by discriminate.
    rewrite (errors_Is_exclusive _ _ ErrFuture Hk) by discriminate.
    rewrite Hk, Hs. cbn.
    destruct (Node_Reset u (Derived s) f w3) as [[e' |] w4]; split; reflexivity.
Qed.

(** X10. On a Conflict signal with local-unsafe [u] and finalized [f]
    read, [resetSignal] is those two reads, then [resolveConflict] on the
    given L1 reference with [u] and [f], then one warning if the resolver
    failed; the resolver's error goes no further. *)
Theorem resetSignal_conflict_runs_resolver :
  forall (errSignal : error) (l1Ref : BlockRef) (w w1 w2 : World) (u f : BlockID),
    LocalUnsafe (chainID m) w = ((u, None), w1) ->
    Finalized (chainID m) w1 = ((f, None), w2) ->
    errors_Is errSignal ErrConflict = true ->
    let r := resolveConflict m l1Ref u f w2 in
    resetSignal m errSignal l1Ref w =
      (tt, world_of r,
       [CallLocalUnsafe (chainID m); CallFinalized (chainID m)] ++
       trace_of r ++
       match value_of r with
       | Some _ => [Log LvlWarn "Failed to resolve conflict"]
       | None => []
       end).
Proof.
  intros errSignal l1Ref w w1 w2 u f Hu Hf Hk r. subst r.
  unfold resetSignal. step. rewrite Hu. cbn beta iota zeta. rewrite Hf.
  cbn beta iota zeta. rewrite Hk.
  destruct (resolveConflict m l1Ref u f w2) as [[[e |] w3] t3]; proj_run;
    cbn; rewrite ?app_nil_r; reflexivity.
Qed.

(** X11. A Reset event of the node never enters the conflict resolver: it
    makes no [SafeDerivedAt] read and sends at most one reset.  When its
    message says the engine itself must be reset, the handler logs the
    message and does nothing else. *)
Theorem onResetEvent_is_a_single_future_reset :
  forall (errStr : string) (w : World),
    let t := trace_of (onResetEvent m errStr w) in
    oracle_queries t = [] /\
    (List.length (resets t) <= 1)%nat /\
    (Contains errStr "cannot continue derivation until Engine has been reset" = true ->
     onResetEvent m errStr w = (tt, w, [Log LvlWarn "Node sent us a reset error"])).
Proof.
  intros errStr w. cbv zeta. unfold onResetEvent.
  destruct (Contains errStr _).
  - cbn. repeat split. lia.
  - unfold resetSignal. step.
    destruct (LocalUnsafe (chainID m) w) as [[u [e |]] w1]; cbn;
      [split; [reflexivity | split; [lia | discriminate]] |].
    destruct (Finalized (chainID m) w1) as [[f [e |]] w2]; cbn;
      [split; [reflexivity | split; [lia | discriminate]] |].
    destruct (LocalSafe (chainID m) w2) as [[s [e |]] w3]; cbn;
      destruct (Node_Reset u (Derived s) f w3) as [[e' |] w4]; cbn;
      (split; [reflexivity | split; [lia | discriminate]]).
Qed.

(** ** How the resolver can end *)

Lemma walkBack_ends (u f : BlockID) :
  forall attempts cur w v w' t,
    walkBack m attempts u f cur w = (v, w', t) ->
    stopped_without_boundary v \/
    v = Some (Errorf "reached finalized block %d without finding common ancestor"
                     [ArgNum (id_Number f)] None).
Proof.
  unfold stopped_without_boundary.
  induction attempts as [| attempts IH]; intros cur w v w' t Hrun.
  - inversion Hrun; subst. left. right. right. right. reflexivity.
  - cbn [walkBack] in Hrun.
    destruct (uint64 (cur - 1) <=? id_Number f).
    { inversion Hrun; subst. right. reflexivity. }
    unfold bind at 1 in Hrun. unfold call at 1 in Hrun.
    destruct (SafeDerivedAt (chainID m) (mkBlockID 0 (uint64 (cur - 1))) w)
      as [[b [e |]] w1]; cbn beta iota zeta in Hrun.
    { inversion Hrun; subst. left. right. left.
      exists (uint64 (cur - 1)), e. reflexivity. }
    unfold bind at 1 in Hrun. rewrite tryReset_run in Hrun.
    destruct (Node_Reset u b f w1) as [[e' |] w2];
      cbn beta iota zeta in Hrun; cbn [fst snd] in Hrun.
    + destruct (walkable (Some e')) eqn:Hw; cbn [negb] in Hrun.
      * destruct (walkBack m attempts u f (uint64 (cur - 1)) w2)
          as [[v3 w3] t3] eqn:Hrec.
        inversion Hrun; subst. exact (IH _ _ _ _ _ Hrec).
      * inversion Hrun; subst. left. right. right. left.
        exists (uint64 (cur - 1)), e'. split; [reflexivity | exact Hw].
    + inversion Hrun; subst. left. left. reflexivity.
Qed.

Lemma resolveConflict_ends (l1Ref : BlockRef) (u f : BlockID) :
  forall w v w' t,
    resolveConflict m l1Ref u f w = (v, w', t) ->
    v = None \/
    v = Some (Errorf "reached finalized block %d without finding common ancestor"
                     [ArgNum (id_Number f)] None) \/
    v = Some (Errorf "exceeded maximum walk-back attempts (%d)" [ArgNum 300] None) \/
    (exists e, v = Some (Errorf "failed to retrieve safe block for %v: %w"
                                [ArgID (ID l1Ref)] (Some e))) \/
    (exists n e, v = Some (Errorf "failed to retrieve safe block %d: %w"
                                  [ArgNum n] (Some e))) \/
    (exists e, v = Some (Errorf "error during reset: %w" [] (Some e)) /\
               walkable (Some e) = false) \/
    (exists n e, v = Some (Errorf "error during reset at block %d: %w"
                                  [ArgNum n] (Some e)) /\
                 walkable (Some e) = false).
Proof.
  intros w v w' t Hrun. unfold resolveConflict in Hrun.
  unfold bind at 1 in Hrun. unfold call at 1 in Hrun.
  destruct (SafeDerivedAt (chainID m) (ID l1Ref) w) as [[s [e |]] w1];
    cbn beta iota zeta in Hrun.
  { inversion Hrun; subst. right. right. right. left. exists e. reflexivity. }
  unfold bind at 1 in Hrun. rewrite tryReset_run in Hrun.
  destruct (Node_Reset u s f w1) as [[e' |] w2];
    cbn beta iota zeta in Hrun; cbn [fst snd] in Hrun.
  - destruct (walkable (Some e')) eqn:Hw; cbn [negb] in Hrun.
    + destruct (walkBack m (Z.to_nat maxWalkBackAttempts) u f (id_Number s) w2)
        as [[v3 w3] t3] eqn:Hrec.
      inversion Hrun; subst.
      destruct (walkBack_ends u f _ _ _ _ _ _ Hrec) as [[H | [H | [H | H]]] | H];
        auto 10.
    + inversion Hrun; subst. right. right. right. right. right. left. exists e'.
      split; [reflexivity | exact Hw].
  - inversion Hrun; subst. left. reflexivity.
Qed.

(** X12. Whatever the collaborators answer, [resolveConflict] ends in one
    of seven ways: success; the finalized boundary or the attempt bound,
    two errors that wrap no cause; or an error that wraps its cause, which
    is a failed oracle read (the first or one of the walk) or a reset
    error that is not walkable (the first or one of the walk).  It never
    gives up on a walkable reset error other than by the boundary or the
    bound. *)
Theorem resolveConflict_ends_in_one_of_seven_ways :
  forall (l1Ref : BlockRef) (u f : BlockID) (w : World),
    let v := value_of (resolveConflict m l1Ref u f w) in
    v = None \/
    v = Some (Errorf "reached finalized block %d without finding common ancestor"
                     [ArgNum (id_Number f)] None) \/
    v = Some (Errorf "exceeded maximum walk-back attempts (%d)" [ArgNum 300] None) \/
    (exists e, v = Some (Errorf "failed to retrieve safe block for %v: %w"
                                [ArgID (ID l1Ref)] (Some e))) \/
    (exists n e, v = Some (Errorf "failed to retrieve safe block %d: %w"
                                  [ArgNum n] (Some e))) \/
    (exists e, v = Some (Errorf "error during reset: %w" [] (Some e)) /\
               walkable (Some e) = false) \/
    (exists n e, v = Some (Errorf "error during reset at block %d: %w"
                                  [ArgNum n] (Some e)) /\
                 walkable (Some e) = false).
Proof.
  intros l1Ref u f w v.
  exact (resolveConflict_ends l1Ref u f _ _ _ _
           (run_eta (resolveConflict m l1Ref u f w))).
Qed.

(** ** The pull loop and the dispatcher at work together *)

Lemma onNodeEvent_opt_dispatch (ev : option ManagedEvent) (w : World) :
  handlers_fired (trace_of (onNodeEvent m ev w)) = populated_of ev /\
  emitted (trace_of (onNodeEvent m ev w)) = relayed_of m ev.
Proof.
  destruct ev as [ev |].
  - apply (onNodeEvent_dispatch m ev w).
  - split; reflexivity.
Qed.

Lemma Pulls_relays :
  forall w evs e w' t,
    Pulls m w evs e w' t ->
    handlers_fired t = flat_map populated_of evs /\
    emitted t = flat_map (relayed_of m) evs.
Proof.
  induction 1 as [w ev e w1 Hp | w ev w1 w2 t1 evs e w3 t2 Hp Hd Hrun IH].
  - split; reflexivity.
  - destruct IH as [IHh IHe].
    destruct (onNodeEvent_opt_dispatch ev w1) as [Hh He].
    rewrite Hd in Hh, He. proj_run.
    change (CallPullEvent :: t1 ++ t2) with ([CallPullEvent] ++ t1 ++ t2).
    rewrite !handlers_fired_app, !emitted_app, Hh, He, IHh, IHe.
    split; reflexivity.
Qed.

(** X13. A returning [PullEvents] has run, in the order the events were
    pulled, exactly the handlers of their populated variants, and has put
    on the bus exactly the events they relay, in that order. *)
Theorem PullEvents_dispatches_what_it_pulls :
  forall (fuel : nat) (w w' : World) (r : bool * error) (t : Trace),
    PullEvents m fuel w = (Some r, w', t) ->
    exists evs e,
      Pulls m w evs e w' t /\
      handlers_fired t = flat_map populated_of evs /\
      emitted t = flat_map (relayed_of m) evs.
Proof.
  intros fuel w w' r t Hrun. unfold PullEvents in Hrun.
  destruct (PullEvents_loop_sound m _ _ _ _ _ _ Hrun) as (evs & e & Hp & _).
  exists evs, e. split; [exact Hp |]. exact (Pulls_relays _ _ _ _ _ Hp).
Qed.

(** X14. When [PullEvents] returns pulledAny = false, its only effect was
    one [PullEvent] call, the one that failed: nothing was dispatched. *)
Theorem PullEvents_nothing_pulled :
  forall (fuel : nat) (w w' : World) (e' : error) (t : Trace),
    PullEvents m fuel w = (Some (false, e'), w', t) ->
    t = [CallPullEvent] /\
    w' = snd (Node_PullEvent w) /\
    exists e, snd (fst (Node_PullEvent w)) = Some e /\ e' = terminal_error e.
Proof.
  intros fuel w w' e' t Hrun. unfold PullEvents in Hrun.
  destruct (PullEvents_loop_sound m _ _ _ _ _ _ Hrun) as (evs & e & Hp & Hr).
  inversion Hr as [[Hany He]]. cbn in Hany.
  destruct evs as [| ev evs]; [| discriminate Hany].
  inversion Hp as [w0 ev0 e0 w1 Hpull |]; subst.
  rewrite Hpull. cbn. split; [reflexivity |]. split; [reflexivity |].
  exists e. split; reflexivity.
Qed.

(** X15. An event that carries neither Reset nor ExhaustL1 is only
    relayed: its handling leaves the world as it was and consists of log
    lines and bus emissions, with no call to the oracle or the node. *)
Theorem onNodeEvent_relay_only :
  forall (ev : ManagedEvent) (w : World),
    ev_Reset ev = None -> ev_ExhaustL1 ev = None ->
    world_of (onNodeEvent m (Some ev) w) = w /\
    forallb is_local (trace_of (onNodeEvent m (Some ev) w)) = true.
Proof.
  intros [r ub du ex rb] w Hr Hex. cbn in Hr, Hex. subst r ex.
  destruct ub, du, rb; split; reflexivity.
Qed.

(** X16. The L1 block the feeder asks for is numbered in uint64: the read
    follows the opening log line, its number is within [0, 2^64), and
    after the last uint64 number it is 0. *)
Theorem onExhaustL1Event_number_wraps :
  forall (completed : DerivedBlockRefPair) (w : World),
    let n := ref_Number (pair_DerivedFrom completed) in
    exists q rest,
      trace_of (onExhaustL1Event completed w) =
        Log LvlInfo "Node completed syncing" :: CallL1BlockRefByNumber q :: rest /\
      0 <= q < uint64_modulus /\
      (n = uint64_max -> q = 0).
Proof.
  intros completed w n.
  exists (uint64 (n + 1)).
  assert (Hrange : 0 <= uint64 (n + 1) < uint64_modulus)
    by (apply Z.mod_pos_bound; reflexivity).
  assert (Hwrap : n = uint64_max -> uint64 (n + 1) = 0)
    by (intros Hn; rewrite Hn; reflexivity).
  unfold onExhaustL1Event. fold n. step.
  destruct (L1BlockRefByNumber (uint64 (n + 1)) w) as [[b [e |]] w1];
    cbn beta iota zeta.
  - destruct (errors_Is (Some e) NotFound); eexists; (split; [reflexivity | auto]).
  - destruct (Node_ProvideL1 b w1) as [[e' |] w2];
      eexists; (split; [reflexivity | auto]).
Qed.

End Invariants.

(** * Properties of the bus-event handlers *)

Section BusProofs.

Context {World : Type} {B : backend World} {N : SyncControl World}.
Context {SL : Seals} {U : SyncUpdates World}.
Variable m : ManagedNode.

Lemma mutations_lifted (t : Trace) : mutations (map Core t) = [].
Proof. induction t as [| e t IH]; [reflexivity | exact IH]. Qed.

Lemma core_trace_lifted (t : Trace) : core_trace (map Core t) = t.
Proof. induction t as [| e t IH]; [reflexivity |]. cbn. f_equal. exact IH. Qed.

Lemma mutations_app (t1 t2 : list BusEffect) :
  mutations (t1 ++ t2) = mutations t1 ++ mutations t2.
Proof. apply flat_map_app. Qed.

(** X17. An inbound bus event addressed to another chain, or of a type the
    node does not handle, is dropped: [OnEvent] returns false, calls
    nothing, logs nothing and leaves the world as it was. *)
Theorem OnEvent_ignores_other_chains :
  forall (ev : bus_event) (w : World),
    event_chain ev <> Some (chainID m) ->
    OnEvent m ev w = (false, w, []).
Proof.
  intros ev w Hc. unfold OnEvent.
  destruct ev as [c x | c x | c x | c x | c l e | c |]; cbn [event_chain] in Hc;
    try reflexivity;
    (destruct (Z.eqb_spec c (chainID m)) as [Heq | Hne];
     [exfalso; apply Hc; now rewrite Heq | reflexivity]).
Qed.

(** X18. [OnEvent] returns true exactly for the six handled event types
    addressed to its own chain, whatever the backend and the node answer:
    a failure inside a handler is logged, not reported. *)
Theorem OnEvent_reports_handled :
  forall (ev : bus_event) (w : World),
    bus_value_of (OnEvent m ev w) =
      match event_chain ev with
      | Some c => c =? chainID m
      | None => false
      end.
Proof.
  intros ev w. unfold OnEvent, bus_value_of.
  destruct ev as [c x | c x | c x | c x | c l e | c |]; cbn [event_chain];
    try reflexivity;
    (destruct (c =? chainID m); cbn [negb]; [| reflexivity]);
    unfold bindB.
  - destruct (onInvalidateLocalSafe x w) as [[a w1] t1]. reflexivity.
  - destruct (onCrossUnsafeUpdate x w) as [[a w1] t1]. reflexivity.
  - destruct (onCrossSafeUpdate x w) as [[a w1] t1]. reflexivity.
  - destruct (onFinalizedL2 x w) as [[a w1] t1]. reflexivity.
  - destruct (liftB (resetSignal m e l) w) as [[a w1] t1]. reflexivity.
  - destruct (liftB (sendReset m) w) as [[a w1] t1]. reflexivity.
Qed.

(** The mutations of the node in the handling of one event. *)
Lemma OnEvent_mutations (ev : bus_event) (w : World) :
  mutations (bus_trace_of (OnEvent m ev w)) = forwarded m ev.
Proof.
  unfold OnEvent, forwarded, bus_trace_of.
  destruct ev as [c x | c x | c x | c x | c l e | c |];
    try reflexivity;
    (destruct (c =? chainID m); cbn [negb]; [| reflexivity]).
  - unfold onInvalidateLocalSafe, bindB, callB, logB, retB. cbn beta iota zeta.
    destruct (Node_InvalidateBlock _ w) as [[e |] w1]; reflexivity.
  - unfold onCrossUnsafeUpdate, bindB, callB, logB, retB. cbn beta iota zeta.
    destruct (Node_UpdateCrossUnsafe _ w) as [[e |] w1]; reflexivity.
  - unfold onCrossSafeUpdate, bindB, callB, logB, retB. cbn beta iota zeta.
    destruct (Node_UpdateCrossSafe _ _ w) as [[e |] w1]; reflexivity.
  - unfold onFinalizedL2, bindB, callB, logB, retB. cbn beta iota zeta.
    destruct (Node_UpdateFinalized _ w) as [[e |] w1]; reflexivity.
  - unfold bindB, liftB, retB.
    destruct (resetSignal m e l w) as [[a w1] t]. cbn [snd].
    rewrite app_nil_r. apply mutations_lifted.
  - unfold bindB, liftB, retB.
    destruct (sendReset m w) as [[a w1] t]. cbn [snd].
    rewrite app_nil_r. apply mutations_lifted.
Qed.

(** X19. The handling of an inbound event mutates the node exactly as the
    event says and as nothing else does: one [UpdateCrossUnsafe],
    [UpdateCrossSafe] (derived, then derived-from), [UpdateFinalized] or
    [InvalidateBlock] call for such an event of this chain, with the
    identities taken from the event, whether or not the node accepts it;
    and no mutation for any other event. *)
Theorem OnEvent_forwards_exactly_the_event :
  forall (ev : bus_event) (w : World),
    mutations (bus_trace_of (OnEvent m ev w)) = forwarded m ev.
Proof. exact OnEvent_mutations. Qed.

(** X20. Nothing is deduplicated: the same event delivered twice in a row
    mutates the node twice, with the same arguments. *)
Theorem OnEvent_redelivery_forwards_again :
  forall (ev : bus_event) (w : World),
    mutations (bus_trace_of (bindB (OnEvent m ev) (fun _ => OnEvent m ev) w)) =
      forwarded m ev ++ forwarded m ev.
Proof.
  intros ev w. unfold bindB, bus_trace_of.
  pose proof (OnEvent_mutations ev w) as H1. unfold bus_trace_of in H1.
  destruct (OnEvent m ev w) as [[a w1] t1].
  pose proof (OnEvent_mutations ev w1) as H2. unfold bus_trace_of in H2.
  destruct (OnEvent m ev w1) as [[b w2] t2]. cbn [snd] in *.
  rewrite mutations_app, H1, H2. reflexivity.
Qed.

(** X21. A safety update or an invalidation is forwarded without
    consulting the backend: besides the one mutation, its handling only
    writes log lines (no oracle read, no reset, no emission). *)
Theorem OnEvent_forwarding_reads_nothing :
  forall (ev : bus_event) (w : World),
    is_forwarding ev = true ->
    forallb is_log (core_trace (bus_trace_of (OnEvent m ev w))) = true.
Proof.
  intros ev w Hfw. unfold OnEvent, bus_trace_of.
  destruct ev as [c x | c x | c x | c x | c l e | c |];
    try discriminate Hfw;
    (destruct (c =? chainID m); cbn [negb]; [| reflexivity]).
  - unfold onInvalidateLocalSafe, bindB, callB, logB, retB. cbn beta iota zeta.
    destruct (Node_InvalidateBlock _ w) as [[e |] w1]; reflexivity.
  - unfold onCrossUnsafeUpdate, bindB, callB, logB, retB. cbn beta iota zeta.
    destruct (Node_UpdateCrossUnsafe _ w) as [[e |] w1]; reflexivity.
  - unfold onCrossSafeUpdate, bindB, callB, logB, retB. cbn beta iota zeta.
    destruct (Node_UpdateCrossSafe _ _ w) as [[e |] w1]; reflexivity.
  - unfold onFinalizedL2, bindB, callB, logB, retB. cbn beta iota zeta.
    destruct (Node_UpdateFinalized _ w) as [[e |] w1]; reflexivity.
Qed.

(** X22. On its own chain, a local-safe-out-of-sync event is handled as
    [resetSignal] with the event's error and L1 reference, and a
    chain-rewound event as [sendReset]: same calls, log lines and final
    world, and no mutation of another kind. *)
Theorem OnEvent_reset_events_run_the_reset_handlers :
  forall (l1Ref : BlockRef) (errSignal : error) (w : World),
    (let r := OnEvent m (LocalSafeOutOfSyncEvent (chainID m) l1Ref errSignal) w in
     core_trace (bus_trace_of r) = trace_of (resetSignal m errSignal l1Ref w) /\
     bus_world_of r = world_of (resetSignal m errSignal l1Ref w)) /\
    (let r := OnEvent m (ChainRewoundEvent (chainID m)) w in
     core_trace (bus_trace_of r) = trace_of (sendReset m w) /\
     bus_world_of r = world_of (sendReset m w)).
Proof.
  intros l1Ref errSignal w. cbv zeta. unfold OnEvent.
  rewrite Z.eqb_refl. cbn [negb]. unfold bindB, liftB, retB, bus_trace_of, bus_world_of.
  split.
  - destruct (resetSignal m errSignal l1Ref w) as [[a w1] t]. proj_run.
    rewrite app_nil_r, core_trace_lifted. split; reflexivity.
  - destruct (sendReset m w) as [[a w1] t]. proj_run.
    rewrite app_nil_r, core_trace_lifted. split; reflexivity.
Qed.

End BusProofs.

(** * The theorems at work on scripted answers *)

(** The end-to-end scenario of the walk-back, by evaluation: finalized 100,
    candidates 150 down to 101 all refused with "conflicting block" except
    120. *)
Example walk_back_150_to_120 :
  let r := sim_resolveConflict base_responses sim_l1 sim_u sim_f [] in
  value_of r = None /\
  List.length (resets (trace_of r)) = 31%nat /\
  reset_candidates (trace_of r) = countdown 31 150.
Proof. vm_compute. repeat split. Qed.

(** The scripted oracle answers a walk-back query by number. *)
Lemma sim_oracle_by_number (F S C : Z) :
  @oracle_by_number Queue (sim_backend (walk_responses (ID sim_l1) F S C))
                    sim_node_m sim_l1 F S.
Proof.
  split.
  - intros w. split; reflexivity.
  - intros n Hn w. split; reflexivity.
Qed.

(** The scripted node accepts at [C] and refuses elsewhere with
    "conflicting block". *)
Lemma sim_walk_scenario (F S C : Z) :
  0 <= F -> F < C -> C <= S -> S < uint64_modulus ->
  @WalkBackScenario Queue (sim_backend (walk_responses (ID sim_l1) F S C))
                    (sim_node (walk_responses (ID sim_l1) F S C))
                    sim_node_m sim_l1 sim_u (mkBlockID 2 F) S C.
Proof.
  intros HF HFC HCS HS. unfold WalkBackScenario.
  repeat (split; [assumption |]). split; [apply sim_oracle_by_number |]. split.
  - intros safe Hs w. cbn. rewrite Hs, Z.eqb_refl. reflexivity.
  - intros safe Hs w. cbn.
    destruct (Z.eqb_spec (id_Number safe) C) as [Heq | _]; [lia | reflexivity].
Qed.

Lemma resolveConflict_finds_common_ancestor_witness :
  let r := sim_resolveConflict base_responses sim_l1 sim_u sim_f [] in
  value_of r = None /\
  reset_candidates (trace_of r) = countdown 31 150 /\
  List.length (resets (trace_of r)) = 31%nat /\
  Forall (fun n => 100 < n) (reset_candidates (trace_of r)).
Proof.
  apply (@resolveConflict_finds_common_ancestor
           Queue (sim_backend base_responses) (sim_node base_responses)
           sim_node_m sim_l1 sim_u sim_f 150 120 []).
  - apply (sim_walk_scenario 100 150 120); vm_compute; congruence.
  - vm_compute. congruence.
Defined.

(** C1 as stated fails beyond the attempt bound: with finalized 100, first
    candidate 500 and the only acceptable candidate 150, the premises of
    the claim hold, yet the resolver gives up with the attempt-bound error
    after 301 resets (500 down to 200), never trying 150. *)
Lemma resolveConflict_gives_up_beyond_bound :
  let R := walk_responses (ID sim_l1) 100 500 150 in
  let r := sim_resolveConflict R sim_l1 sim_u sim_f [] in
  @WalkBackScenario Queue (sim_backend R) (sim_node R)
                    sim_node_m sim_l1 sim_u sim_f 500 150 /\
  value_of r = Some (Errorf "exceeded maximum walk-back attempts (%d)"
                            [ArgNum 300] None) /\
  value_of r <> None /\
  List.length (resets (trace_of r)) = 301%nat /\
  reset_candidates (trace_of r) = countdown 301 500.
Proof.
  cbv zeta. split.
  - apply (sim_walk_scenario 100 500 150); vm_compute; congruence.
  - vm_compute. repeat split. discriminate.
Qed.

Lemma sim_exhaustion_scenario (F S : Z) :
  0 <= F -> F < S -> S < uint64_modulus ->
  @ExhaustionScenario Queue (sim_backend (refuse_all F S)) (sim_node (refuse_all F S))
                      sim_node_m sim_l1 sim_u (mkBlockID 2 F) S.
Proof.
  intros HF HFS HS. unfold ExhaustionScenario.
  repeat (split; [assumption |]). split.
  - split.
    + intros w. split; reflexivity.
    + intros n Hn w. split; reflexivity.
  - intros safe Hs w. reflexivity.
Qed.

Lemma resolveConflict_exhaustion_errors_witness :
  (let r := sim_resolveConflict (refuse_all 100 150) sim_l1 sim_u sim_f [] in
   value_of r =
     Some (Errorf "reached finalized block %d without finding common ancestor"
                  [ArgNum 100] None) /\
   reset_candidates (trace_of r) = countdown 50 150) /\
  (let r := sim_resolveConflict (refuse_all 100 500) sim_l1 sim_u sim_f [] in
   value_of r =
     Some (Errorf "exceeded maximum walk-back attempts (%d)" [ArgNum 300] None) /\
   reset_candidates (trace_of r) = countdown 301 500).
Proof.
  split.
  - apply (proj1 (@resolveConflict_exhaustion_errors
                    Queue (sim_backend (refuse_all 100 150))
                    (sim_node (refuse_all 100 150))
                    sim_node_m sim_l1 sim_u sim_f 150 []
                    (sim_exhaustion_scenario 100 150
                       ltac:(lia) ltac:(lia) ltac:(reflexivity)))).
    vm_compute. congruence.
  - apply (proj1 (proj2 (@resolveConflict_exhaustion_errors
                    Queue (sim_backend (refuse_all 100 500))
                    (sim_node (refuse_all 100 500))
                    sim_node_m sim_l1 sim_u sim_f 500 []
                    (sim_exhaustion_scenario 100 500
                       ltac:(lia) ltac:(lia) ltac:(reflexivity))))).
    reflexivity.
Defined.

Lemma resolveConflict_short_circuits_witness :
  sim_resolveConflict reset_times_out sim_l1 sim_u sim_f [] =
    (Some (Errorf "error during reset: %w" []
                  (Some (Opaque "context deadline exceeded"))), [],
     [CallSafeDerivedAt 10 (ID sim_l1);
      Log LvlDebug "Attempting reset";
      CallReset sim_u (mkBlockID 1 150) sim_f]) /\
  sim_resolveConflict oracle_down sim_l1 sim_u sim_f [] =
    (Some (Errorf "failed to retrieve safe block for %v: %w"
                  [ArgID (ID sim_l1)] (Some (Sentinel NotFound))), [],
     [CallSafeDerivedAt 10 (ID sim_l1)]).
Proof.
  split.
  - apply (proj1 (@resolveConflict_short_circuits
                    Queue (sim_backend reset_times_out) (sim_node reset_times_out)
                    sim_node_m sim_l1 sim_u sim_f [])
                 (mkBlockID 1 150) (Opaque "context deadline exceeded") [] []);
      reflexivity.
  - apply (proj2 (@resolveConflict_short_circuits
                    Queue (sim_backend oracle_down) (sim_node oracle_down)
                    sim_node_m sim_l1 sim_u sim_f [])
                 zeroBlockID (Sentinel NotFound) []); reflexivity.
Defined.


Lemma resetSignal_aborts_witness :
  sim_resetSignal local_unsafe_down (Some (Sentinel ErrConflict)) sim_l1 [] =
    (tt, [], [CallLocalUnsafe 10; Log LvlWarn "Failed to retrieve local-unsafe"]) /\
  sim_resetSignal finalized_down (Some (Sentinel ErrConflict)) sim_l1 [] =
    (tt, [], [CallLocalUnsafe 10; CallFinalized 10;
              Log LvlWarn "Failed to retrieve finalized"]) /\
  sim_resetSignal base_responses (Some (Sentinel NotFound)) sim_l1 [] =
    (tt, [], [CallLocalUnsafe 10; CallFinalized 10]).
Proof.
  split; [| split].
  - apply (proj1 (@resetSignal_aborts_without_reference_points
                    Queue (sim_backend local_unsafe_down) (sim_node local_unsafe_down)
                    sim_node_m (Some (Sentinel ErrConflict)) sim_l1 [])
                 zeroBlockID (Opaque "db closed") []).
    reflexivity.
  - apply (proj1 (proj2 (@resetSignal_aborts_without_reference_points
                    Queue (sim_backend finalized_down) (sim_node finalized_down)
                    sim_node_m (Some (Sentinel ErrConflict)) sim_l1 []))
                 sim_u [] zeroBlockID (Opaque "db closed") []);
      reflexivity.
  - apply (proj2 (proj2 (@resetSignal_aborts_without_reference_points
                    Queue (sim_backend base_responses) (sim_node base_responses)
                    sim_node_m (Some (Sentinel NotFound)) sim_l1 []))
                 sim_u [] sim_f []);
      reflexivity.
Defined.


Lemma onExhaustL1Event_witness :
  sim_onExhaustL1Event l1_not_found completed_at_40 [] =
    (tt, [], [Log LvlInfo "Node completed syncing";
              CallL1BlockRefByNumber 41;
              Log LvlDebug "Next L1 block is not yet available"]) /\
  sim_onExhaustL1Event l1_broken completed_at_40 [] =
    (tt, [], [Log LvlInfo "Node completed syncing";
              CallL1BlockRefByNumber 41;
              Log LvlError "Failed to retrieve next L1 block for node"]) /\
  provided (trace_of (sim_onExhaustL1Event base_responses completed_at_40 [])) =
    [mkBlockRef 3 41 0 0].
Proof.
  split; [| split].
  - apply (proj1 (proj2 (@onExhaustL1Event_feeds_next_L1
                    Queue (sim_backend l1_not_found) (sim_node l1_not_found)
                    completed_at_40 []))
                 zeroBlockRef (Errorf "next L1: %w" [] (Some (Sentinel NotFound))) []);
      reflexivity.
  - apply (proj1 (proj2 (proj2 (@onExhaustL1Event_feeds_next_L1
                    Queue (sim_backend l1_broken) (sim_node l1_broken)
                    completed_at_40 [])))
                 zeroBlockRef (Opaque "connection refused") []);
      reflexivity.
  - apply (proj2 (proj2 (proj2 (@onExhaustL1Event_feeds_next_L1
                    Queue (sim_backend base_responses) (sim_node base_responses)
                    completed_at_40 [])))
                 (mkBlockRef 3 41 0 0) []).
    reflexivity.
Defined.

(** An event carrying Reset, UnsafeBlock and ExhaustL1 runs those three
    handlers, in that order. *)
Example three_variants_fire_in_order :
  handlers_fired (trace_of (sim_onNodeEvent base_responses (Some three_variants) [])) =
    [HReset; HUnsafeBlock; HExhaustL1] /\
  emitted (trace_of (sim_onNodeEvent base_responses (Some three_variants) [])) =
    [LocalUnsafeReceivedEvent 10 sim_unsafe_ref].
Proof. vm_compute. split; reflexivity. Qed.

Lemma onNodeEvent_witness :
  sim_onNodeEvent base_responses (Some emptyEvent) [] = (tt, [], []) /\
  handlers_fired (trace_of (sim_onNodeEvent base_responses (Some three_variants) [])) =
    [HReset; HUnsafeBlock; HExhaustL1].
Proof.
  split.
  - apply (proj1 (proj2 (@onNodeEvent_dispatches_populated_variants
                    Queue (sim_backend base_responses) (sim_node base_responses)
                    sim_node_m))).
    reflexivity.
  - apply (proj1 (proj1 (@onNodeEvent_dispatches_populated_variants
                    Queue (sim_backend base_responses) (sim_node base_responses)
                    sim_node_m) three_variants [])).
Defined.

(** C7 as stated fails on the log: an event that is present but has no
    variant populated runs no handler and emits nothing, and it leaves no
    log line either; only an absent (nil) event is logged. *)
Lemma onNodeEvent_empty_event_is_not_logged :
  populated emptyEvent = [] /\
  sim_onNodeEvent base_responses (Some emptyEvent) [] = (tt, [], []) /\
  ~ (exists lvl msg,
        In (Log lvl msg)
           (trace_of (sim_onNodeEvent base_responses (Some emptyEvent) []))) /\
  sim_onNodeEvent base_responses None [] =
    (tt, [], [Log LvlWarn "Received nil event"]).
Proof.
  split; [reflexivity |]. split; [reflexivity |]. split; [| reflexivity].
  intros (lvl & msg & Hin). exact Hin.
Qed.

Lemma PullEvents_witness :
  sim_PullEvents base_responses 3 [(Some unsafe_only, None); (None, None)] =
    (Some (true, None), [],
     [CallPullEvent;
      Log LvlInfo "Node has new unsafe block";
      Emit (LocalUnsafeReceivedEvent 10 sim_unsafe_ref);
      CallPullEvent;
      Log LvlWarn "Received nil event";
      CallPullEvent]) /\
  sim_PullEvents base_responses 1 [(None, Some (Sentinel Canceled))] =
    (Some (false, Some (Sentinel Canceled)), [], [CallPullEvent]).
Proof.
  split.
  - apply (proj1 (@PullEvents_until_source_fails
                    Queue (sim_backend base_responses) (sim_node base_responses)
                    sim_node_m [(Some unsafe_only, None); (None, None)] [] _)
                 [Some unsafe_only; None] (Sentinel EOF)).
    + exact (Pulls_next (B := sim_backend base_responses) (N := sim_node base_responses)
               sim_node_m [(Some unsafe_only, None); (None, None)]
               (Some unsafe_only) [(None, None)] [(None, None)]
               [Log LvlInfo "Node has new unsafe block";
                Emit (LocalUnsafeReceivedEvent 10 sim_unsafe_ref)]
               [None] (Sentinel EOF) []
               [CallPullEvent; Log LvlWarn "Received nil event"; CallPullEvent]
               eq_refl eq_refl
               (Pulls_next (B := sim_backend base_responses)
                  (N := sim_node base_responses)
                  sim_node_m [(None, None)] None [] []
                  [Log LvlWarn "Received nil event"] [] (Sentinel EOF) []
                  [CallPullEvent] eq_refl eq_refl
                  (Pulls_stop (B := sim_backend base_responses)
                     (N := sim_node base_responses)
                     sim_node_m [] None (Sentinel EOF) [] eq_refl))).
    + simpl. lia.
  - apply (proj1 (@PullEvents_until_source_fails
                    Queue (sim_backend base_responses) (sim_node base_responses)
                    sim_node_m [(None, Some (Sentinel Canceled))] [] _)
                 [] (Sentinel Canceled)).
    + exact (Pulls_stop (B := sim_backend base_responses)
               (N := sim_node base_responses)
               sim_node_m [(None, Some (Sentinel Canceled))] None
               (Sentinel Canceled) [] eq_refl).
    + simpl. lia.
Defined.

(** The walk from a first candidate 0, by evaluation: the second oracle
    read is at [2^64 - 1], and the walk ends on the attempt bound after
    301 resets. *)
Example walk_back_from_zero :
  let r := sim_resolveConflict (refuse_all 0 0) sim_l1 sim_u (mkBlockID 2 0) [] in
  value_of r = Some (Errorf "exceeded maximum walk-back attempts (%d)"
                            [ArgNum 300] None) /\
  nth 1 (oracle_queries (trace_of r)) zeroBlockID =
    mkBlockID 0 18446744073709551615 /\
  List.length (resets (trace_of r)) = 301%nat.
Proof. vm_compute. repeat split. Qed.


(** * The further properties at work on scripted answers *)

Lemma resolveConflict_first_candidate_at_finalized_witness :
  let f200 := mkBlockID 2 200 in
  exists s,
    id_Number s = 150 /\
    trace_of (sim_resolveConflict (refuse_all 200 150) sim_l1 sim_u f200 []) =
      [CallSafeDerivedAt 10 (ID sim_l1);
       Log LvlDebug "Attempting reset";
       CallReset sim_u s f200] /\
    value_of (sim_resolveConflict (refuse_all 200 150) sim_l1 sim_u f200 []) =
      Some (Errorf "reached finalized block %d without finding common ancestor"
                   [ArgNum 200] None).
Proof.
  apply (@resolveConflict_first_candidate_at_finalized
           Queue (sim_backend (refuse_all 200 150)) (sim_node (refuse_all 200 150))
           sim_node_m sim_l1 sim_u (mkBlockID 2 200) 150 []).
  - lia.
  - simpl. lia.
  - reflexivity.
  - intros w. split; reflexivity.
  - intros safe Hs w. reflexivity.
Defined.

Lemma resolveConflict_stops_on_oracle_failure_witness :
  let r := sim_resolveConflict oracle_gap sim_l1 sim_u sim_f [] in
  value_of r =
    Some (Errorf "failed to retrieve safe block %d: %w" [ArgNum 130]
                 (Some (Sentinel NotFound))) /\
  reset_candidates (trace_of r) = countdown 20 150.
Proof.
  apply (@resolveConflict_stops_on_oracle_failure
           Queue (sim_backend oracle_gap) (sim_node oracle_gap)
           sim_node_m sim_l1 sim_u sim_f 150 130 (Sentinel NotFound) []).
  - simpl. lia.
  - simpl. lia.
  - lia.
  - reflexivity.
  - vm_compute. congruence.
  - intros w. split; reflexivity.
  - intros n Hn w. cbn.
    destruct (Z.eqb_spec n 130) as [Heq | _]; [lia | split; reflexivity].
  - intros w0. reflexivity.
  - intros safe Hs w. reflexivity.
Defined.

Lemma resolveConflict_stops_on_reset_failure_witness :
  let r := sim_resolveConflict reset_breaks_at_130 sim_l1 sim_u sim_f [] in
  value_of r =
    Some (Errorf "error during reset at block %d: %w" [ArgNum 130]
                 (Some (Opaque "engine busy"))) /\
  reset_candidates (trace_of r) = countdown 21 150.
Proof.
  apply (@resolveConflict_stops_on_reset_failure
           Queue (sim_backend reset_breaks_at_130) (sim_node reset_breaks_at_130)
           sim_node_m sim_l1 sim_u sim_f 150 130 (Opaque "engine busy") []).
  - simpl. lia.
  - simpl. lia.
  - lia.
  - reflexivity.
  - vm_compute. congruence.
  - intros w. split; reflexivity.
  - intros n Hn w. split; reflexivity.
  - intros safe w0 Hs. cbn. rewrite Hs. reflexivity.
  - reflexivity.
  - intros safe Hs w. cbn.
    destruct (Z.eqb_spec (id_Number safe) 130) as [Heq | _]; [lia | reflexivity].
Defined.

Lemma resetSignal_resets_to_local_safe_witness :
  resets (trace_of (sim_resetSignal base_responses outOfOrder sim_l1 [])) =
    [(sim_u, zeroBlockID, sim_f)] /\
  world_of (sim_resetSignal base_responses outOfOrder sim_l1 []) = [].
Proof.
  apply (@resetSignal_resets_to_local_safe
           Queue (sim_backend base_responses) (sim_node base_responses)
           sim_node_m outOfOrder sim_l1 [] [] [] [] sim_u sim_f zeroDerivedIDPair
           eq_refl eq_refl eq_refl).
  right. reflexivity.
Defined.

Lemma resetSignal_conflict_witness :
  let r := sim_resolveConflict base_responses sim_l1 sim_u sim_f [] in
  sim_resetSignal base_responses (Some (Sentinel ErrConflict)) sim_l1 [] =
    (tt, world_of r,
     [CallLocalUnsafe 10; CallFinalized 10] ++ trace_of r ++
     match value_of r with
     | Some _ => [Log LvlWarn "Failed to resolve conflict"]
     | None => []
     end).
Proof.
  apply (@resetSignal_conflict_runs_resolver
           Queue (sim_backend base_responses) (sim_node base_responses)
           sim_node_m (Some (Sentinel ErrConflict)) sim_l1 [] [] [] sim_u sim_f
           eq_refl eq_refl eq_refl).
Defined.

Lemma PullEvents_dispatches_witness :
  exists evs e,
    @Pulls Queue (sim_backend base_responses) (sim_node base_responses) sim_node_m
           [(Some unsafe_only, None); (None, None)] evs e []
           (trace_of (sim_PullEvents base_responses 3
                        [(Some unsafe_only, None); (None, None)])) /\
    handlers_fired (trace_of (sim_PullEvents base_responses 3
                                [(Some unsafe_only, None); (None, None)])) =
      flat_map populated_of evs /\
    emitted (trace_of (sim_PullEvents base_responses 3
                         [(Some unsafe_only, None); (None, None)])) =
      flat_map (relayed_of sim_node_m) evs.
Proof.
  apply (@PullEvents_dispatches_what_it_pulls
           Queue (sim_backend base_responses) (sim_node base_responses)
           sim_node_m 3 [(Some unsafe_only, None); (None, None)] []
           (true, None)).
  reflexivity.
Defined.

Lemma PullEvents_nothing_pulled_witness :
  let w := [(None, Some (Sentinel Canceled))] in
  let r := sim_PullEvents base_responses 1 w in
  trace_of r = [CallPullEvent] /\
  world_of r = snd (@Node_PullEvent Queue (sim_node base_responses) w) /\
  exists e,
    snd (fst (@Node_PullEvent Queue (sim_node base_responses) w)) = Some e /\
    Some (Sentinel Canceled) = terminal_error e.
Proof.
  apply (@PullEvents_nothing_pulled
           Queue (sim_backend base_responses) (sim_node base_responses)
           sim_node_m 1 [(None, Some (Sentinel Canceled))]
           (world_of (sim_PullEvents base_responses 1
                        [(None, Some (Sentinel Canceled))]))
           (Some (Sentinel Canceled))
           (trace_of (sim_PullEvents base_responses 1
                        [(None, Some (Sentinel Canceled))]))).
  reflexivity.
Defined.

Lemma onNodeEvent_relay_only_witness :
  world_of (sim_onNodeEvent base_responses (Some unsafe_only) []) = [] /\
  forallb is_local (trace_of (sim_onNodeEvent base_responses (Some unsafe_only) []))
    = true.
Proof.
  apply (@onNodeEvent_relay_only
           Queue (sim_backend base_responses) (sim_node base_responses)
           sim_node_m unsafe_only []); reflexivity.
Defined.

Lemma OnEvent_ignores_other_chains_witness :
  sim_OnEvent base_responses false (CrossSafeUpdateEvent 11 sim_seal_pair) [] =
    (false, [], []).
Proof.
  apply (@OnEvent_ignores_other_chains
           Queue (sim_backend base_responses) (sim_node base_responses)
           sim_seals (sim_updates false) sim_node_m
           (CrossSafeUpdateEvent 11 sim_seal_pair) []).
  cbn. intros H. inversion H.
Defined.

Lemma OnEvent_forwarding_reads_nothing_witness :
  forallb is_log
    (core_trace (bus_trace_of
       (sim_OnEvent base_responses true (CrossSafeUpdateEvent 10 sim_seal_pair) [])))
    = true.
Proof.
  apply (@OnEvent_forwarding_reads_nothing
           Queue (sim_backend base_responses) (sim_node base_responses)
           sim_seals (sim_updates true) sim_node_m
           (CrossSafeUpdateEvent 10 sim_seal_pair) []).
  reflexivity.
Defined.

(** A cross-safe update delivered twice to a node that refuses it: two
    identical calls, derived first. *)
Example cross_safe_update_twice :
  mutations (bus_trace_of
    (bindB (sim_OnEvent base_responses true (CrossSafeUpdateEvent 10 sim_seal_pair))
           (fun _ => sim_OnEvent base_responses true
                       (CrossSafeUpdateEvent 10 sim_seal_pair)) [])) =
    [CallUpdateCrossSafe (mkBlockID 1 140) (mkBlockID 7 40);
     CallUpdateCrossSafe (mkBlockID 1 140) (mkBlockID 7 40)].
Proof. reflexivity. Qed.

(** Without the oracle answering the walk-back reads by number, the
    premises on the first candidate and on the node do not give the
    success of C1: with a gap in the oracle at 130 the resolver returns
    the oracle's failure, and with an oracle that answers the read at [n]
    with the block numbered [n - 100] it sends resets at numbers at or
    below finalized and ends at the boundary. *)
Example resolveConflict_needs_walk_back_reads_by_number :
  (let R := gap_before_ancestor in
   @oracle_yields Queue (sim_backend R) sim_node_m (ID sim_l1) 150 /\
   (forall safe, id_Number safe = 120 ->
                 @reset_accepts Queue (sim_node R) sim_u sim_f safe) /\
   (forall safe, 120 < id_Number safe <= 150 ->
                 @reset_rejects_walkable Queue (sim_node R) sim_u sim_f safe) /\
   value_of (sim_resolveConflict R sim_l1 sim_u sim_f []) =
     Some (Errorf "failed to retrieve safe block %d: %w" [ArgNum 130]
                  (Some (Sentinel NotFound)))) /\
  (let R := shifted_oracle in
   @oracle_yields Queue (sim_backend R) sim_node_m (ID sim_l1) 150 /\
   (forall safe, id_Number safe = 120 ->
                 @reset_accepts Queue (sim_node R) sim_u sim_f safe) /\
   (forall safe, 120 < id_Number safe <= 150 ->
                 @reset_rejects_walkable Queue (sim_node R) sim_u sim_f safe) /\
   value_of (sim_resolveConflict R sim_l1 sim_u sim_f []) =
     Some (Errorf "reached finalized block %d without finding common ancestor"
                  [ArgNum 100] None) /\
   reset_candidates (trace_of (sim_resolveConflict R sim_l1 sim_u sim_f [])) =
     150 :: countdown 49 49).
Proof.
  split; cbv zeta.
  - split; [intros w; split; reflexivity |]. split.
    { intros safe Hs w. cbn. rewrite Hs. reflexivity. }
    split.
    { intros safe Hs w. cbn.
      destruct (Z.eqb_spec (id_Number safe) 120) as [Heq | _]; [lia | reflexivity]. }
    vm_compute. reflexivity.
  - split; [intros w; split; reflexivity |]. split.
    { intros safe Hs w. cbn. rewrite Hs. reflexivity. }
    split.
    { intros safe Hs w. cbn.
      destruct (Z.eqb_spec (id_Number safe) 120) as [Heq | _]; [lia | reflexivity]. }
    vm_compute. split; reflexivity.
Qed.

(** A node that refuses the first reset it sees and accepts the second:
    the resolver succeeds at the second candidate, and the journal shows
    the refusal followed by the acceptance. *)
Example resolveConflict_journal_of_two_resets :
  let r' := @resolveConflict (nat * Journal) (recording_backend counting_backend)
                             (recording_node counting_node) sim_node_m
                             sim_l1 sim_u sim_f (O, []) in
  value_of r' = None /\
  world_of r' =
    (2%nat, [((sim_u, mkBlockID 1 150, sim_f), Some conflicting);
             ((sim_u, mkBlockID 1 149, sim_f), None)]).
Proof. vm_compute. split; reflexivity. Qed.
